(** * jwkset: the JWK codec ([KeyMarshal] / [KeyUnmarshal]) and key-set assembly

    A shallow embedding of [src/jwk.go].  The file holds two revisions of the
    codec.  The later one (with the [ALG] field and the RSA decoder) is the
    codec of this development, [KeyMarshal] and [KeyUnmarshal]; the earlier
    one is kept in [Legacy].  [KeyWithMeta], [NewKey] and [JWKSet.JSON] are
    declared in the first part of the file only.

    Go values are modelled as follows.
    - [string] is a byte string: [String.string].
    - [[]byte] is [list byte].
    - [*big.Int] is its value in [Z].
    - [int] and [uint64] are [Z] with the 64-bit wrap-around written out.
    - [(T, error)] results are [result T]; a run-time panic (index out of
      range, slice bounds) is the third constructor [Panic].
    - [error] values are the tree built by [errors.New] and by [fmt.Errorf]
      with a [%w] verb; [errors_Is] walks the chain as [errors.Is] does.
    - pointers to keys and to big integers are taken to be non-nil, and a
      curve to be one whose [Params] can be read.

    The functions of Go's standard library the codec calls
    ([encoding/base64], [strings.TrimRight], [math/big], [crypto/ed25519],
    [crypto/elliptic], [crypto/rsa]) are modelled after their documented
    behaviour, each under the name it has in Go.  In the format strings of
    [fmt.Errorf] a quoted parameter name is written between single
    quotes. *)

From Stdlib Require Import ZArith NArith List Bool Lia.
From Stdlib.Strings Require Import String Ascii Byte.
Import ListNotations.

Local Open Scope string_scope.
Local Open Scope Z_scope.

(* ================================================================== *)
(** ** Errors and results *)

(** Go [error] values.  The first two are the package's sentinels; the rest
    are the errors of the standard library that can reach the codec. *)
Inductive error : Type :=
| ErrKeyUnmarshalParameter
| ErrUnsupportedKeyType
| CorruptInputError (offset : Z)          (* encoding/base64 *)
| errPublicExponentSmall                  (* crypto/rsa: public exponent too small *)
| errPublicExponentLarge                  (* crypto/rsa: public exponent too large *)
| errInvalidPrime                         (* crypto/rsa: invalid prime value *)
| errInvalidModulus                       (* crypto/rsa: invalid modulus *)
| errInvalidExponents                     (* crypto/rsa: invalid exponents *)
| Errorf (format : string) (wrapped : error). (* fmt.Errorf with one %w operand *)

Fixpoint error_eqb (a b : error) : bool :=
  match a, b with
  | ErrKeyUnmarshalParameter, ErrKeyUnmarshalParameter => true
  | ErrUnsupportedKeyType, ErrUnsupportedKeyType => true
  | CorruptInputError m, CorruptInputError n => Z.eqb m n
  | errPublicExponentSmall, errPublicExponentSmall => true
  | errPublicExponentLarge, errPublicExponentLarge => true
  | errInvalidPrime, errInvalidPrime => true
  | errInvalidModulus, errInvalidModulus => true
  | errInvalidExponents, errInvalidExponents => true
  | Errorf f x, Errorf g y => String.eqb f g && error_eqb x y
  | _, _ => false
  end.

(** [errors.Is]: [target] is [err] or is somewhere in its [%w] chain. *)
Fixpoint errors_Is (err target : error) : bool :=
  error_eqb err target ||
  match err with
  | Errorf _ wrapped => errors_Is wrapped target
  | _ => false
  end.

Inductive result (A : Type) : Type :=
| Ok (a : A)
| Err (e : error)
| Panic.
Arguments Ok {A} a.
Arguments Err {A} e.
Arguments Panic {A}.

Definition bind {A B} (r : result A) (k : A -> result B) : result B :=
  match r with
  | Ok a => k a
  | Err e => Err e
  | Panic => Panic
  end.

(** [v, err := f(); if err != nil { return fmt.Errorf(format, err) }]. *)
Definition wrapErr {A} (format : string) (r : result A) : result A :=
  match r with
  | Err e => Err (Errorf format e)
  | _ => r
  end.

(** [f <$> r]: a function applied to a successful result. *)
Definition fmap {A B} (f : A -> B) (r : result A) : result B :=
  match r with
  | Ok a => Ok (f a)
  | Err e => Err e
  | Panic => Panic
  end.

Declare Scope result_scope.
Delimit Scope result_scope with result.
Notation "x <- r ;; k" := (bind r (fun x => k))
  (at level 61, r at next level, right associativity) : result_scope.
Notation "f <$> r" := (fmap f r) (at level 62, left associativity) : result_scope.
Local Open Scope result_scope.

(* ================================================================== *)
(** ** Bytes *)

Definition bytes := list byte.

(** The conversion [byte(v)] of an unsigned integer: the low eight bits. *)
Definition byte_of_N (v : N) : byte :=
  match Byte.of_N (v mod 256) with
  | Some b => b
  | None => x00
  end.

(* ================================================================== *)
(** ** encoding/base64, [RawURLEncoding] (URL alphabet, no padding, not strict) *)

Module base64.

Definition encodeURL : string :=
  "ABCDEFGHIJKLMNOPQRSTUVWXYZabcdefghijklmnopqrstuvwxyz0123456789-_".

(** [enc.encode[i]]; only indices below 64 are used. *)
Definition encode (i : N) : ascii :=
  match String.get (N.to_nat i) encodeURL with
  | Some c => c
  | None => "A"%char
  end.

Fixpoint index_of (c : ascii) (s : string) (i : N) : N :=
  match s with
  | EmptyString => 255
  | String a s' => if Ascii.eqb a c then i else index_of c s' (N.succ i)
  end%N.

(** [enc.decodeMap[c]]: the index of [c] in the alphabet, [0xff] for any
    other byte. *)
Definition decodeMap (c : ascii) : N := index_of c encodeURL 0.

(** [Encode]: three source bytes at a time become four characters; a
    remainder of one or two bytes becomes two or three characters, and
    with [NoPadding] nothing more is written. *)
Fixpoint EncodeToString (src : bytes) : string :=
  match src with
  | [] => EmptyString
  | [s0] =>
      let val := N.shiftl (Byte.to_N s0) 16 in
      String (encode (N.land (N.shiftr val 18) 63))
        (String (encode (N.land (N.shiftr val 12) 63)) EmptyString)
  | [s0; s1] =>
      let val := N.lor (N.shiftl (Byte.to_N s0) 16) (N.shiftl (Byte.to_N s1) 8) in
      String (encode (N.land (N.shiftr val 18) 63))
        (String (encode (N.land (N.shiftr val 12) 63))
           (String (encode (N.land (N.shiftr val 6) 63)) EmptyString))
  | s0 :: s1 :: s2 :: rest =>
      let val := N.lor (N.lor (N.shiftl (Byte.to_N s0) 16)
                              (N.shiftl (Byte.to_N s1) 8)) (Byte.to_N s2) in
      String (encode (N.land (N.shiftr val 18) 63))
        (String (encode (N.land (N.shiftr val 12) 63))
           (String (encode (N.land (N.shiftr val 6) 63))
              (String (encode (N.land val 63)) (EncodeToString rest))))
  end%N.

(** The tail of [decodeQuantum]: the [dlen] collected 6-bit values (the
    missing ones are zero) become [dlen - 1] bytes. *)
Definition quantumBytes (dbuf : list N) (dlen : nat) : bytes :=
  let d k := nth k dbuf 0%N in
  let val := N.lor (N.lor (N.lor (N.shiftl (d 0%nat) 18) (N.shiftl (d 1%nat) 12))
                          (N.shiftl (d 2%nat) 6)) (d 3%nat) in
  firstn (dlen - 1)
    [byte_of_N (N.shiftr val 16); byte_of_N (N.shiftr val 8); byte_of_N val].

(** [Decode] and [decodeQuantum] as one pass over the input.  [si] is the
    index of the next input byte, [j] the number of 6-bit values collected
    for the current quantum and [dbuf] those values.  A carriage return or
    a line feed is skipped; any other byte outside the alphabet is a
    [CorruptInputError] (with [NoPadding] no byte is the padding
    character); at the end of the input a quantum of one character is
    corrupt and one of two or three characters yields one or two bytes.
    (The 8- and 4-character fast paths of [Decode] compute the same bytes
    and fall back to [decodeQuantum] on any byte outside the alphabet.) *)
Fixpoint decode (src : string) (si : Z) (j : nat) (dbuf : list N) : result bytes :=
  match src with
  | EmptyString =>
      match j with
      | O => Ok []
      | S O => Err (CorruptInputError (si - Z.of_nat j))
      | _ => Ok (quantumBytes dbuf j)
      end
  | String c rest =>
      let si := si + 1 in
      let out := decodeMap c in
      if negb (N.eqb out 255) then
        match j with
        | S (S (S _)) =>
            out3 <- decode rest si 0 [] ;;
            Ok (quantumBytes (dbuf ++ [out]) 4 ++ out3)%list
        | _ => decode rest si (S j) (dbuf ++ [out])%list
        end
      else if Ascii.eqb c "010"%char || Ascii.eqb c "013"%char then
        decode rest si j dbuf
      else Err (CorruptInputError (si - 1))
  end.

Definition DecodeString (s : string) : result bytes := decode s 0 0 [].

End base64.

(* ================================================================== *)
(** ** strings *)

(** [strings.TrimRight(s, cutset)] for a cutset of ASCII characters: the
    longest suffix made of bytes of [cutset] is removed. *)
Fixpoint inCutset (c : ascii) (cutset : string) : bool :=
  match cutset with
  | EmptyString => false
  | String a rest => Ascii.eqb a c || inCutset c rest
  end.

Fixpoint TrimRight (s cutset : string) : string :=
  match s with
  | EmptyString => EmptyString
  | String a rest =>
      match TrimRight rest cutset with
      | EmptyString => if inCutset a cutset then EmptyString else String a EmptyString
      | t => String a t
      end
  end.

(** [base64urlTrailingPadding]: trailing padding is removed, and the rest is
    decoded as unpadded base64url. *)
Definition base64urlTrailingPadding (s : string) : result bytes :=
  let s := TrimRight s "=" in
  base64.DecodeString s.

(* ================================================================== *)
(** ** math/big *)

Module big.

(** [nat.bytes]: the big-endian bytes of a natural number, without leading
    zero bytes; [fuel] bounds the number of bytes. *)
Fixpoint natBytes (fuel : nat) (n : N) : bytes :=
  match fuel with
  | O => []
  | S fuel' =>
      if N.eqb n 0 then []
      else (natBytes fuel' (n / 256) ++ [byte_of_N n])%list
  end%N.

(** [Int.Bytes]: the absolute value as a big-endian byte slice. *)
Definition Bytes (x : Z) : bytes := natBytes (N.to_nat (N.size (Z.abs_N x))) (Z.abs_N x).

(** [Int.SetBytes]: the bytes read as a big-endian unsigned integer. *)
Definition SetBytes (buf : bytes) : Z :=
  Z.of_N (fold_left (fun acc b => N.lor (N.shiftl acc 8) (Byte.to_N b)) buf 0%N).

(** [Int.Uint64]: the low 64 bits of the absolute value. *)
Definition Uint64 (x : Z) : Z := Z.abs x mod 2 ^ 64.

End big.

(** The conversion [int(u)] of a [uint64] on a 64-bit platform. *)
Definition int (u : Z) : Z := if u <? 2 ^ 63 then u else u - 2 ^ 64.

(** [bigIntToBase64RawURL]. *)
Definition bigIntToBase64RawURL (i : Z) : string :=
  base64.EncodeToString (big.Bytes i).

(* ================================================================== *)
(** ** crypto/ed25519 *)

Module ed25519.

Definition PublicKeySize : nat := 32.
Definition PrivateKeySize : nat := 64.

(** [PrivateKey.Public]: a fresh 32-byte slice into which [priv[32:]] is
    copied; slicing panics on a key shorter than 32 bytes. *)
Definition Public (priv : bytes) : result bytes :=
  if (List.length priv <? 32)%nat then Panic
  else Ok (firstn PublicKeySize (skipn 32 priv ++ repeat x00 PublicKeySize)%list).

End ed25519.

(* ================================================================== *)
(** ** crypto/elliptic and crypto/ecdsa *)

Module elliptic.

(** The part of [CurveParams] the development uses: the canonical name,
    the order [P] of the underlying field and the constant [B] of the
    curve equation [y^2 = x^3 - 3x + B]. *)
Record Curve : Type := { Name : string; P : Z; B : Z }.

Definition P224 : Curve :=
  {| Name := "P-224";
     P := 2 ^ 224 - 2 ^ 96 + 1;
     B := 0xb4050a850c04b3abf54132565044b0b7d7bfd8ba270b39432355ffb4 |}.

Definition P256 : Curve :=
  {| Name := "P-256";
     P := 2 ^ 256 - 2 ^ 224 + 2 ^ 192 + 2 ^ 96 - 1;
     B := 0x5ac635d8aa3a93e7b3ebbd55769886bc651d06b0cc53b0f63bce3c3e27d2604b |}.

Definition P384 : Curve :=
  {| Name := "P-384";
     P := 2 ^ 384 - 2 ^ 128 - 2 ^ 96 + 2 ^ 32 - 1;
     B := 0xb3312fa7e23ee7e4988e056be3f82d19181d9c6efe8141120314088f5013875ac656398d8a2ed19d2a85c8edd3ec2aef |}.

Definition P521 : Curve :=
  {| Name := "P-521";
     P := 2 ^ 521 - 1;
     B := 0x051953eb9618e1c9a1f929a21a0b68540eea2da725b99b315f3b8b489918ef109e156193951ec7e937b1652c0bd3bb1bf073573df883d2c34f1ef451fd46b503f00 |}.

(** [CurveParams.IsOnCurve]: both coordinates are field elements and
    satisfy the curve equation. *)
Definition IsOnCurve (c : Curve) (x y : Z) : bool :=
  (0 <=? x) && (x <? P c) && (0 <=? y) && (y <? P c) &&
  ((y * y) mod P c =? (x * x * x - 3 * x + B c) mod P c).

End elliptic.

Module ecdsa.

Record PublicKey : Type := { Curve : elliptic.Curve; X : Z; Y : Z }.
(** [Pub] is the embedded [PublicKey] field. *)
Record PrivateKey : Type := { Pub : PublicKey; D : Z }.

End ecdsa.

(* ================================================================== *)
(** ** crypto/rsa *)

Module rsa.

Record PublicKey : Type := { N : Z; E : Z }.
Record CRTValue : Type := { Exp : Z; Coeff : Z; R : Z }.
Record PrecomputedValues : Type :=
  { Dp : Z; Dq : Z; Qinv : Z; CRTValues : list CRTValue }.
(** [Pub] is the embedded [PublicKey] field. *)
Record PrivateKey : Type :=
  { Pub : PublicKey; D : Z; Primes : list Z; Precomputed : PrecomputedValues }.

Definition checkPub (pub : PublicKey) : option error :=
  if E pub <? 2 then Some errPublicExponentSmall
  else if E pub >? 2 ^ 31 - 1 then Some errPublicExponentLarge
  else None.

(** The first loop of [Validate]: every prime is above one, and the
    primes are multiplied up; [None] is the "invalid prime value" exit. *)
Fixpoint mulPrimes (primes : list Z) (modulus : Z) : option Z :=
  match primes with
  | [] => Some modulus
  | prime :: rest =>
      if prime <=? 1 then None
      else mulPrimes rest (modulus * prime)
  end.

(** The second loop of [Validate]: [de ≡ 1 mod p-1] for each prime. *)
Fixpoint checkExponents (de : Z) (primes : list Z) : option error :=
  match primes with
  | [] => None
  | prime :: rest =>
      if de mod (prime - 1) =? 1 then checkExponents de rest
      else Some errInvalidExponents
  end.

(** [PrivateKey.Validate]: the sanity checks of [crypto/rsa]: the public
    exponent is in range, the primes are above one and multiply to the
    modulus, and [d] inverts [e] modulo each [p-1].  The precomputed CRT
    values take no part in them. *)
Definition Validate (priv : PrivateKey) : option error :=
  match checkPub (Pub priv) with
  | Some err => Some err
  | None =>
      match mulPrimes (Primes priv) 1 with
      | None => Some errInvalidPrime
      | Some modulus =>
          if negb (modulus =? N (Pub priv)) then Some errInvalidModulus
          else checkExponents (E (Pub priv) * D priv) (Primes priv)
      end
  end.

End rsa.

(** [s[i]] on a slice: out of range is a run-time panic. *)
Definition index {A} (s : list A) (i : nat) : result A :=
  match nth_error s i with
  | Some a => Ok a
  | None => Panic
  end.

(* ================================================================== *)
(** ** The package's types *)

(** [KTY], [CRV] and [ALG] are string types; their constants: *)
Definition ALGEdDSA : string := "EdDSA".
Definition KeyTypeEC : string := "EC".
Definition KeyTypeOKP : string := "OKP".
Definition KeyTypeRSA : string := "RSA".
Definition KeyTypeOct : string := "oct".
Definition CurveEd25519 : string := "Ed25519".
Definition CurveP256 : string := "P-256".
Definition CurveP384 : string := "P-384".
Definition CurveP521 : string := "P-521".

(** The dynamic type and value held by [KeyWithMeta.Key], an [interface{}]:
    the seven types the codec's type switch knows, the two public key types
    held by value (which the earlier revision of the switch knows instead of
    the pointers), the nil interface, and any other dynamic type (named by
    what [%T] prints). *)
Inductive KeyValue : Type :=
| nilKey
| ecdsaPrivateKey (key : ecdsa.PrivateKey)      (* *ecdsa.PrivateKey *)
| ecdsaPublicKey (key : ecdsa.PublicKey)        (* *ecdsa.PublicKey *)
| ed25519PrivateKey (key : bytes)               (* ed25519.PrivateKey *)
| ed25519PublicKey (key : bytes)                (* ed25519.PublicKey *)
| rsaPrivateKey (key : rsa.PrivateKey)          (* *rsa.PrivateKey *)
| rsaPublicKey (key : rsa.PublicKey)            (* *rsa.PublicKey *)
| byteSlice (key : bytes)                       (* []byte *)
| ecdsaPublicKeyValue (key : ecdsa.PublicKey)   (* ecdsa.PublicKey, not a pointer *)
| rsaPublicKeyValue (key : rsa.PublicKey)       (* rsa.PublicKey, not a pointer *)
| otherKey (typeName : string).

Module KeyWithMeta.
Record t : Type := { Key : KeyValue; KeyID : string }.
End KeyWithMeta.

(** [NewKey]. *)
Definition NewKey (key : KeyValue) (keyID : string) : KeyWithMeta.t :=
  {| KeyWithMeta.Key := key; KeyWithMeta.KeyID := keyID |}.

Module OtherPrimes.
Record t : Type := { D : string; R : string; T : string }.
End OtherPrimes.

Module JWKMarshal.

Record t : Type :=
  { ALG : string; CRV : string; D : string; DP : string; DQ : string;
    E : string; K : string; KID : string; KTY : string; N : string;
    OTH : list OtherPrimes.t; P : string; Q : string; QI : string;
    X : string; Y : string }.

(** The zero value, [JWKMarshal{}]. *)
Definition zero : t :=
  let empty := EmptyString in
  {| ALG := empty; CRV := empty; D := empty; DP := empty; DQ := empty;
     E := empty; K := empty; KID := empty; KTY := empty; N := empty;
     OTH := []; P := empty; Q := empty; QI := empty; X := empty; Y := empty |}.

(** Field assignments, [jwk.F = v]. *)
Definition set_ALG v j := Build_t v (CRV j) (D j) (DP j) (DQ j) (E j) (K j) (KID j) (KTY j) (N j) (OTH j) (P j) (Q j) (QI j) (X j) (Y j).
Definition set_CRV v j := Build_t (ALG j) v (D j) (DP j) (DQ j) (E j) (K j) (KID j) (KTY j) (N j) (OTH j) (P j) (Q j) (QI j) (X j) (Y j).
Definition set_D v j := Build_t (ALG j) (CRV j) v (DP j) (DQ j) (E j) (K j) (KID j) (KTY j) (N j) (OTH j) (P j) (Q j) (QI j) (X j) (Y j).
Definition set_DP v j := Build_t (ALG j) (CRV j) (D j) v (DQ j) (E j) (K j) (KID j) (KTY j) (N j) (OTH j) (P j) (Q j) (QI j) (X j) (Y j).
Definition set_DQ v j := Build_t (ALG j) (CRV j) (D j) (DP j) v (E j) (K j) (KID j) (KTY j) (N j) (OTH j) (P j) (Q j) (QI j) (X j) (Y j).
Definition set_E v j := Build_t (ALG j) (CRV j) (D j) (DP j) (DQ j) v (K j) (KID j) (KTY j) (N j) (OTH j) (P j) (Q j) (QI j) (X j) (Y j).
Definition set_K v j := Build_t (ALG j) (CRV j) (D j) (DP j) (DQ j) (E j) v (KID j) (KTY j) (N j) (OTH j) (P j) (Q j) (QI j) (X j) (Y j).
Definition set_KID v j := Build_t (ALG j) (CRV j) (D j) (DP j) (DQ j) (E j) (K j) v (KTY j) (N j) (OTH j) (P j) (Q j) (QI j) (X j) (Y j).
Definition set_KTY v j := Build_t (ALG j) (CRV j) (D j) (DP j) (DQ j) (E j) (K j) (KID j) v (N j) (OTH j) (P j) (Q j) (QI j) (X j) (Y j).
Definition set_N v j := Build_t (ALG j) (CRV j) (D j) (DP j) (DQ j) (E j) (K j) (KID j) (KTY j) v (OTH j) (P j) (Q j) (QI j) (X j) (Y j).
Definition set_OTH v j := Build_t (ALG j) (CRV j) (D j) (DP j) (DQ j) (E j) (K j) (KID j) (KTY j) (N j) v (P j) (Q j) (QI j) (X j) (Y j).
Definition set_P v j := Build_t (ALG j) (CRV j) (D j) (DP j) (DQ j) (E j) (K j) (KID j) (KTY j) (N j) (OTH j) v (Q j) (QI j) (X j) (Y j).
Definition set_Q v j := Build_t (ALG j) (CRV j) (D j) (DP j) (DQ j) (E j) (K j) (KID j) (KTY j) (N j) (OTH j) (P j) v (QI j) (X j) (Y j).
Definition set_QI v j := Build_t (ALG j) (CRV j) (D j) (DP j) (DQ j) (E j) (K j) (KID j) (KTY j) (N j) (OTH j) (P j) (Q j) v (X j) (Y j).
Definition set_X v j := Build_t (ALG j) (CRV j) (D j) (DP j) (DQ j) (E j) (K j) (KID j) (KTY j) (N j) (OTH j) (P j) (Q j) (QI j) v (Y j).
Definition set_Y v j := Build_t (ALG j) (CRV j) (D j) (DP j) (DQ j) (E j) (K j) (KID j) (KTY j) (N j) (OTH j) (P j) (Q j) (QI j) (X j) v.

End JWKMarshal.

Module JWKSMarshal.
Record t : Type := { Keys : list JWKMarshal.t }.
End JWKSMarshal.

Module KeyMarshalOptions.
Record t : Type := { AsymmetricPrivate : bool; Symmetric : bool }.
End KeyMarshalOptions.

Module KeyUnmarshalOptions.
Record t : Type := { AsymmetricPrivate : bool; Symmetric : bool }.
End KeyUnmarshalOptions.

(** Comparison of a string with the empty string, [==] and [!=]. *)
Definition isEmpty (s : string) : bool := String.eqb s EmptyString.
Definition nonEmpty (s : string) : bool := negb (String.eqb s EmptyString).

(* ================================================================== *)
(** ** KeyMarshal *)

Section Codec.

Import JWKMarshal.

(** One [OtherPrimes] entry of the [oth] loop of [KeyMarshal]. *)
Definition marshalCRTValue (v : rsa.CRTValue) : OtherPrimes.t :=
  {| OtherPrimes.D := bigIntToBase64RawURL (rsa.Exp v);
     OtherPrimes.T := bigIntToBase64RawURL (rsa.Coeff v);
     OtherPrimes.R := bigIntToBase64RawURL (rsa.R v) |}.

(** [KeyMarshal] transforms a [KeyWithMeta] into a [JWKMarshal]. *)
Definition KeyMarshal (meta : KeyWithMeta.t) (options : KeyMarshalOptions.t)
  : result JWKMarshal.t :=
  let jwk := JWKMarshal.zero in
  jwk <- match KeyWithMeta.Key meta with
         | ecdsaPrivateKey key =>
             let pub := ecdsa.Pub key in
             let jwk := set_CRV (elliptic.Name (ecdsa.Curve pub)) jwk in
             let jwk := set_X (bigIntToBase64RawURL (ecdsa.X pub)) jwk in
             let jwk := set_Y (bigIntToBase64RawURL (ecdsa.Y pub)) jwk in
             let jwk := set_KTY KeyTypeEC jwk in
             if KeyMarshalOptions.AsymmetricPrivate options
             then Ok (set_D (bigIntToBase64RawURL (ecdsa.D key)) jwk)
             else Ok jwk
         | ecdsaPublicKey key =>
             let jwk := set_CRV (elliptic.Name (ecdsa.Curve key)) jwk in
             let jwk := set_X (bigIntToBase64RawURL (ecdsa.X key)) jwk in
             let jwk := set_Y (bigIntToBase64RawURL (ecdsa.Y key)) jwk in
             Ok (set_KTY KeyTypeEC jwk)
         | ed25519PrivateKey key =>
             pub <- ed25519.Public key ;;
             let jwk := set_ALG ALGEdDSA jwk in
             let jwk := set_CRV CurveEd25519 jwk in
             let jwk := set_X (base64.EncodeToString pub) jwk in
             let jwk := set_KTY KeyTypeOKP jwk in
             if KeyMarshalOptions.AsymmetricPrivate options
             then Ok (set_D (base64.EncodeToString (firstn 32 key)) jwk)
             else Ok jwk
         | ed25519PublicKey key =>
             let jwk := set_ALG ALGEdDSA jwk in
             let jwk := set_CRV CurveEd25519 jwk in
             let jwk := set_X (base64.EncodeToString key) jwk in
             Ok (set_KTY KeyTypeOKP jwk)
         | rsaPrivateKey key =>
             let pub := rsa.Pub key in
             let jwk := set_E (bigIntToBase64RawURL (rsa.E pub)) jwk in
             let jwk := set_N (bigIntToBase64RawURL (rsa.N pub)) jwk in
             let jwk := set_KTY KeyTypeRSA jwk in
             if KeyMarshalOptions.AsymmetricPrivate options then
               let jwk := set_D (bigIntToBase64RawURL (rsa.D key)) jwk in
               p <- index (rsa.Primes key) 0 ;;
               let jwk := set_P (bigIntToBase64RawURL p) jwk in
               q <- index (rsa.Primes key) 1 ;;
               let jwk := set_Q (bigIntToBase64RawURL q) jwk in
               let jwk := set_DP (bigIntToBase64RawURL (rsa.Dp (rsa.Precomputed key))) jwk in
               let jwk := set_DQ (bigIntToBase64RawURL (rsa.Dq (rsa.Precomputed key))) jwk in
               let jwk := set_QI (bigIntToBase64RawURL (rsa.Qinv (rsa.Precomputed key))) jwk in
               Ok (set_OTH (map marshalCRTValue (rsa.CRTValues (rsa.Precomputed key))) jwk)
             else Ok jwk
         | rsaPublicKey key =>
             let jwk := set_E (bigIntToBase64RawURL (rsa.E key)) jwk in
             let jwk := set_N (bigIntToBase64RawURL (rsa.N key)) jwk in
             Ok (set_KTY KeyTypeRSA jwk)
         | byteSlice key =>
             if KeyMarshalOptions.Symmetric options then
               let jwk := set_KTY KeyTypeOct jwk in
               Ok (set_K (base64.EncodeToString key) jwk)
             else Err (Errorf "%w: incorrect options to marshal symmetric key (oct)"
                         ErrUnsupportedKeyType)
         | nilKey | ecdsaPublicKeyValue _ | rsaPublicKeyValue _ | otherKey _ =>
             Err (Errorf "%w: %T" ErrUnsupportedKeyType)
         end ;;
  Ok (set_KID (KeyWithMeta.KeyID meta) jwk).

(* ================================================================== *)
(** ** KeyUnmarshal *)

(** The loop of [KeyUnmarshal] over [jwk.OTH]: each entry needs its three
    parameters and yields one more prime (its [r]) and one CRT value. *)
Fixpoint unmarshalOTH (oth : list OtherPrimes.t) : result (list Z * list rsa.CRTValue) :=
  match oth with
  | [] => Ok ([], [])
  | otherPrimes :: rest =>
      if isEmpty (OtherPrimes.R otherPrimes) || isEmpty (OtherPrimes.D otherPrimes)
         || isEmpty (OtherPrimes.T otherPrimes)
      then Err (Errorf "%w: %s requires parameters 'r', 'd', and 't' for each 'oth'"
                  ErrKeyUnmarshalParameter)
      else
        othD <- wrapErr "failed to decode %s key parameter 'd': %w"
                  (base64urlTrailingPadding (OtherPrimes.D otherPrimes)) ;;
        othT <- wrapErr "failed to decode %s key parameter 't': %w"
                  (base64urlTrailingPadding (OtherPrimes.T otherPrimes)) ;;
        othR <- wrapErr "failed to decode %s key parameter 'r': %w"
                  (base64urlTrailingPadding (OtherPrimes.R otherPrimes)) ;;
        more <- unmarshalOTH rest ;;
        Ok (big.SetBytes othR :: fst more,
            {| rsa.Exp := big.SetBytes othD;
               rsa.Coeff := big.SetBytes othT;
               rsa.R := big.SetBytes othR |} :: snd more)
  end.

(** The curve named by [jwk.CRV], the inner [switch] of the [EC] case. *)
Definition curveOfCRV (crv : string) : result elliptic.Curve :=
  if String.eqb crv CurveP256 then Ok elliptic.P256
  else if String.eqb crv CurveP384 then Ok elliptic.P384
  else if String.eqb crv CurveP521 then Ok elliptic.P521
  else Err (Errorf "%w: unsupported curve type %q" ErrKeyUnmarshalParameter).

(** The body of [case KeyTypeEC] of [KeyUnmarshal]: the value assigned to
    [meta.Key], or the error returned. *)
Definition unmarshalEC (jwk : JWKMarshal.t) (options : KeyUnmarshalOptions.t)
  : result KeyValue :=
  if isEmpty (CRV jwk) || isEmpty (X jwk) || isEmpty (Y jwk) then
    Err (Errorf "%w: %s requires parameters 'crv', 'x', and 'y'" ErrKeyUnmarshalParameter)
  else
    x <- wrapErr "failed to decode %s key parameter 'x': %w" (base64urlTrailingPadding (X jwk)) ;;
    y <- wrapErr "failed to decode %s key parameter 'y': %w" (base64urlTrailingPadding (Y jwk)) ;;
    curve <- curveOfCRV (CRV jwk) ;;
    let publicKey :=
      {| ecdsa.Curve := curve; ecdsa.X := big.SetBytes x; ecdsa.Y := big.SetBytes y |} in
    if KeyUnmarshalOptions.AsymmetricPrivate options && nonEmpty (D jwk) then
      d <- wrapErr "failed to decode %s key parameter 'd': %w" (base64urlTrailingPadding (D jwk)) ;;
      let privateKey := {| ecdsa.Pub := publicKey; ecdsa.D := big.SetBytes d |} in
      Ok (ecdsaPrivateKey privateKey)
    else Ok (ecdsaPublicKey publicKey).

(** The body of [case KeyTypeOKP]. *)
Definition unmarshalOKP (jwk : JWKMarshal.t) (options : KeyUnmarshalOptions.t)
  : result KeyValue :=
  if negb (String.eqb (CRV jwk) CurveEd25519) then
    Err (Errorf "%w: %s key type should have %q curve" ErrKeyUnmarshalParameter)
  else if isEmpty (X jwk) then
    Err (Errorf "%w: %s requires parameter 'x'" ErrKeyUnmarshalParameter)
  else
    public <- wrapErr "failed to decode %s key parameter 'x': %w" (base64urlTrailingPadding (X jwk)) ;;
    if negb (List.length public =? ed25519.PublicKeySize)%nat then
      Err (Errorf "%w: %s key should be %d bytes" ErrKeyUnmarshalParameter)
    else if KeyUnmarshalOptions.AsymmetricPrivate options && nonEmpty (D jwk) then
      private <- wrapErr "failed to decode %s key parameter 'd': %w" (base64urlTrailingPadding (D jwk)) ;;
      let private := (private ++ public)%list in
      if negb (List.length private =? ed25519.PrivateKeySize)%nat then
        Err (Errorf "%w: %s key should be %d bytes" ErrKeyUnmarshalParameter)
      else Ok (ed25519PrivateKey private)
    else Ok (ed25519PublicKey public).

(** The private key assembled by [case KeyTypeRSA] from the decoded
    parameters; [more] is what the loop over [oth] produced. *)
Definition rsaPrivateKeyOf (n e d p q dp dq qi : bytes)
    (more : list Z * list rsa.CRTValue) : rsa.PrivateKey :=
  let publicKey :=
    {| rsa.N := big.SetBytes n; rsa.E := int (big.Uint64 (big.SetBytes e)) |} in
  let primes := big.SetBytes p :: big.SetBytes q :: fst more in
  let oth := snd more in
  {| rsa.Pub := publicKey;
     rsa.D := big.SetBytes d;
     rsa.Primes := primes;
     rsa.Precomputed :=
       {| rsa.Dp := big.SetBytes dp;
          rsa.Dq := big.SetBytes dq;
          rsa.Qinv := big.SetBytes qi;
          rsa.CRTValues := oth |} |}.

(** The body of [case KeyTypeRSA].  When private material is requested and
    one of the six private parameters is absent, neither branch of the
    [if] / [else if] assigns [meta.Key], which stays nil. *)
Definition unmarshalRSA (jwk : JWKMarshal.t) (options : KeyUnmarshalOptions.t)
  : result KeyValue :=
  if isEmpty (N jwk) || isEmpty (E jwk) then
    Err (Errorf "%w: %s requires parameters 'n' and 'e'" ErrKeyUnmarshalParameter)
  else
    n <- wrapErr "failed to decode %s key parameter 'n': %w" (base64urlTrailingPadding (N jwk)) ;;
    e <- wrapErr "failed to decode %s key parameter 'e': %w" (base64urlTrailingPadding (E jwk)) ;;
    let publicKey :=
      {| rsa.N := big.SetBytes n; rsa.E := int (big.Uint64 (big.SetBytes e)) |} in
    if KeyUnmarshalOptions.AsymmetricPrivate options
       && nonEmpty (D jwk) && nonEmpty (P jwk) && nonEmpty (Q jwk)
       && nonEmpty (DP jwk) && nonEmpty (DQ jwk) && nonEmpty (QI jwk) then
      d <- wrapErr "failed to decode %s key parameter 'd': %w" (base64urlTrailingPadding (D jwk)) ;;
      p <- wrapErr "failed to decode %s key parameter 'p': %w" (base64urlTrailingPadding (P jwk)) ;;
      q <- wrapErr "failed to decode %s key parameter 'q': %w" (base64urlTrailingPadding (Q jwk)) ;;
      dp <- wrapErr "failed to decode %s key parameter 'dp': %w" (base64urlTrailingPadding (DP jwk)) ;;
      dq <- wrapErr "failed to decode %s key parameter 'dq': %w" (base64urlTrailingPadding (DQ jwk)) ;;
      qi <- wrapErr "failed to decode %s key parameter 'qi': %w" (base64urlTrailingPadding (QI jwk)) ;;
      more <- unmarshalOTH (OTH jwk) ;;
      let privateKey := rsaPrivateKeyOf n e d p q dp dq qi more in
      match rsa.Validate privateKey with
      | Some err => Err (Errorf "failed to validate %s key: %w" err)
      | None => Ok (rsaPrivateKey privateKey)
      end
    else if negb (KeyUnmarshalOptions.AsymmetricPrivate options) then
      Ok (rsaPublicKey publicKey)
    else Ok nilKey.

(** The body of [case KeyTypeOct]. *)
Definition unmarshalOct (jwk : JWKMarshal.t) (options : KeyUnmarshalOptions.t)
  : result KeyValue :=
  if KeyUnmarshalOptions.Symmetric options then
    if isEmpty (K jwk) then
      Err (Errorf "%w: %s requires parameter 'k'" ErrKeyUnmarshalParameter)
    else
      key <- wrapErr "failed to decode %s key parameter 'k': %w" (base64urlTrailingPadding (K jwk)) ;;
      Ok (byteSlice key)
  else Err (Errorf "%w: incorrect options to unmarshal symmetric key (%s)" ErrUnsupportedKeyType).

(** [KeyUnmarshal] transforms a [JWKMarshal] into a [KeyWithMeta]: the
    [switch] on [jwk.KTY], then [meta.KeyID = jwk.KID]. *)
Definition KeyUnmarshal (jwk : JWKMarshal.t) (options : KeyUnmarshalOptions.t)
  : result KeyWithMeta.t :=
  key <-
    (if String.eqb (KTY jwk) KeyTypeEC then unmarshalEC jwk options
     else if String.eqb (KTY jwk) KeyTypeOKP then unmarshalOKP jwk options
     else if String.eqb (KTY jwk) KeyTypeRSA then unmarshalRSA jwk options
     else if String.eqb (KTY jwk) KeyTypeOct then unmarshalOct jwk options
     else Err (Errorf "%w: %s" ErrUnsupportedKeyType)) ;;
  Ok {| KeyWithMeta.Key := key; KeyWithMeta.KeyID := KID jwk |}.

End Codec.

(* ================================================================== *)
(** ** JWKSet.JSON *)

(** The loop of [JWKSet.JSON] over the snapshot, for a marshalling function
    [marshal]: a key rejected with [ErrUnsupportedKeyType] is skipped, any
    other error ends the loop, and a marshalled key is appended. *)
Fixpoint marshalKeys (marshal : KeyWithMeta.t -> result JWKMarshal.t)
    (keys : list KeyWithMeta.t) (acc : list JWKMarshal.t) : result (list JWKMarshal.t) :=
  match keys with
  | [] => Ok acc
  | meta :: rest =>
      match marshal meta with
      | Ok jwk => marshalKeys marshal rest (acc ++ [jwk])%list
      | Err err =>
          if errors_Is err ErrUnsupportedKeyType then marshalKeys marshal rest acc
          else Err (Errorf "failed to marshal key: %w" err)
      | Panic => Panic
      end
  end.

(** The body of [JWKSet.JSON], up to the final [json.Marshal]: its result
    here is the [JWKSMarshal] document that is serialised.  [snapshot] is
    what [j.Store.SnapshotKeys(ctx)] returned, and [KeyMarshal] the function
    of that name the body calls. *)
Definition JSONwith
    (KeyMarshal : KeyWithMeta.t -> KeyMarshalOptions.t -> result JWKMarshal.t)
    (snapshot : result (list KeyWithMeta.t)) : result JWKSMarshal.t :=
  let options := {| KeyMarshalOptions.AsymmetricPrivate := false;
                    KeyMarshalOptions.Symmetric := false |} in
  keys <- wrapErr "failed to read snapshot of all keys from storage: %w" snapshot ;;
  keys <- marshalKeys (fun meta => KeyMarshal meta options) keys [] ;;
  Ok {| JWKSMarshal.Keys := keys |}.

(** [JWKSet.JSON]. *)
Definition JSON (snapshot : result (list KeyWithMeta.t)) : result JWKSMarshal.t :=
  JSONwith KeyMarshal snapshot.

(* ================================================================== *)
(** ** The earlier revision of the codec

    The first part of [src/jwk.go] holds an earlier [KeyMarshal] and
    [KeyUnmarshal]: no [alg], public keys held by value, the whole Ed25519
    private key in [d], no RSA decoder.  [JWKSet.JSON] is declared next to
    them. *)

Module Legacy.

Import JWKMarshal.

(** The loop [for i := 2; i < len(key.Primes); i++] of [KeyMarshal], which
    reads [key.Precomputed.CRTValues[i]]; [count] is the number of
    iterations left. *)
Fixpoint marshalOTH (crt : list rsa.CRTValue) (i count : nat) : result (list OtherPrimes.t) :=
  match count with
  | O => Ok []
  | S count' =>
      v <- index crt i ;;
      rest <- marshalOTH crt (S i) count' ;;
      Ok (marshalCRTValue v :: rest)
  end.

Definition KeyMarshal (meta : KeyWithMeta.t) (options : KeyMarshalOptions.t)
  : result JWKMarshal.t :=
  let jwk := JWKMarshal.zero in
  jwk <- match KeyWithMeta.Key meta with
         | ecdsaPrivateKey key =>
             let pub := ecdsa.Pub key in
             let jwk := set_CRV (elliptic.Name (ecdsa.Curve pub)) jwk in
             let jwk := set_X (bigIntToBase64RawURL (ecdsa.X pub)) jwk in
             let jwk := set_Y (bigIntToBase64RawURL (ecdsa.Y pub)) jwk in
             let jwk := set_KTY KeyTypeEC jwk in
             if KeyMarshalOptions.AsymmetricPrivate options
             then Ok (set_D (bigIntToBase64RawURL (ecdsa.D key)) jwk)
             else Ok jwk
         | ecdsaPublicKeyValue key =>
             let jwk := set_CRV (elliptic.Name (ecdsa.Curve key)) jwk in
             let jwk := set_X (bigIntToBase64RawURL (ecdsa.X key)) jwk in
             let jwk := set_Y (bigIntToBase64RawURL (ecdsa.Y key)) jwk in
             Ok (set_KTY KeyTypeEC jwk)
         | ed25519PrivateKey key =>
             pub <- ed25519.Public key ;;
             let jwk := set_CRV CurveEd25519 jwk in
             let jwk := set_X (base64.EncodeToString pub) jwk in
             let jwk := set_KTY KeyTypeOKP jwk in
             if KeyMarshalOptions.AsymmetricPrivate options
             then Ok (set_D (base64.EncodeToString key) jwk)
             else Ok jwk
         | ed25519PublicKey key =>
             let jwk := set_CRV CurveEd25519 jwk in
             let jwk := set_X (base64.EncodeToString key) jwk in
             Ok (set_KTY KeyTypeOKP jwk)
         | rsaPrivateKey key =>
             let pub := rsa.Pub key in
             let jwk := set_E (bigIntToBase64RawURL (rsa.E pub)) jwk in
             let jwk := set_N (bigIntToBase64RawURL (rsa.N pub)) jwk in
             let jwk := set_KTY KeyTypeRSA jwk in
             if KeyMarshalOptions.AsymmetricPrivate options then
               let jwk := set_D (bigIntToBase64RawURL (rsa.D key)) jwk in
               p <- index (rsa.Primes key) 0 ;;
               let jwk := set_P (bigIntToBase64RawURL p) jwk in
               q <- index (rsa.Primes key) 1 ;;
               let jwk := set_Q (bigIntToBase64RawURL q) jwk in
               let jwk := set_DP (bigIntToBase64RawURL (rsa.Dp (rsa.Precomputed key))) jwk in
               let jwk := set_DQ (bigIntToBase64RawURL (rsa.Dq (rsa.Precomputed key))) jwk in
               let jwk := set_QI (bigIntToBase64RawURL (rsa.Qinv (rsa.Precomputed key))) jwk in
               oth <- marshalOTH (rsa.CRTValues (rsa.Precomputed key)) 2
                        (List.length (rsa.Primes key) - 2) ;;
               Ok (set_OTH oth jwk)
             else Ok jwk
         | rsaPublicKeyValue key =>
             let jwk := set_E (bigIntToBase64RawURL (rsa.E key)) jwk in
             let jwk := set_N (bigIntToBase64RawURL (rsa.N key)) jwk in
             Ok (set_KTY KeyTypeRSA jwk)
         | byteSlice key =>
             if KeyMarshalOptions.Symmetric options then
               let jwk := set_KTY KeyTypeOct jwk in
               Ok (set_K (base64.EncodeToString key) jwk)
             else Err (Errorf "%w: incorrect options to marshal symmetric key (oct)"
                         ErrUnsupportedKeyType)
         | nilKey | ecdsaPublicKey _ | rsaPublicKey _ | otherKey _ =>
             Err (Errorf "%w: %T" ErrUnsupportedKeyType)
         end ;;
  Ok (set_KID (KeyWithMeta.KeyID meta) jwk).

Definition unmarshalEC (jwk : JWKMarshal.t) (options : KeyUnmarshalOptions.t)
  : result KeyValue :=
  if isEmpty (X jwk) || isEmpty (Y jwk) || isEmpty (CRV jwk) then
    Err (Errorf "%w: %s requires parameters x, y, and crv" ErrKeyUnmarshalParameter)
  else
    x <- wrapErr "failed to decode %s key parameter 'x': %w" (base64urlTrailingPadding (X jwk)) ;;
    y <- wrapErr "failed to decode %s key parameter 'y': %w" (base64urlTrailingPadding (Y jwk)) ;;
    curve <- curveOfCRV (CRV jwk) ;;
    let publicKey :=
      {| ecdsa.Curve := curve; ecdsa.X := big.SetBytes x; ecdsa.Y := big.SetBytes y |} in
    if KeyUnmarshalOptions.AsymmetricPrivate options then
      if isEmpty (D jwk) then
        Err (Errorf "%w: %s requires parameter 'd'" ErrKeyUnmarshalParameter)
      else
        d <- wrapErr "failed to decode %s key parameter 'd': %w" (base64urlTrailingPadding (D jwk)) ;;
        let privateKey := {| ecdsa.Pub := publicKey; ecdsa.D := big.SetBytes d |} in
        Ok (ecdsaPrivateKey privateKey)
    else Ok (ecdsaPublicKey publicKey).

Definition unmarshalOKP (jwk : JWKMarshal.t) (options : KeyUnmarshalOptions.t)
  : result KeyValue :=
  if negb (String.eqb (CRV jwk) CurveEd25519) then
    Err (Errorf "%w: %s key type should have %q curve" ErrUnsupportedKeyType)
  else if KeyUnmarshalOptions.AsymmetricPrivate options then
    if isEmpty (D jwk) then
      Err (Errorf "%w: %s requires parameter 'd'" ErrKeyUnmarshalParameter)
    else
      key <- wrapErr "failed to decode %s key parameter 'd': %w" (base64urlTrailingPadding (D jwk)) ;;
      if negb (List.length key =? ed25519.PrivateKeySize)%nat then
        Err (Errorf "%w: %s key should be %d bytes" ErrUnsupportedKeyType)
      else Ok (ed25519PrivateKey key)
  else
    if isEmpty (X jwk) then
      Err (Errorf "%w: %s requires parameter 'x'" ErrKeyUnmarshalParameter)
    else
      key <- wrapErr "failed to decode %s key parameter 'x': %w" (base64urlTrailingPadding (X jwk)) ;;
      if negb (List.length key =? ed25519.PublicKeySize)%nat then
        Err (Errorf "%w: %s key should be %d bytes" ErrUnsupportedKeyType)
      else Ok (ed25519PublicKey key).

(** [case KeyTypeRSA] is empty ([// TODO]): [meta.Key] stays nil. *)
Definition KeyUnmarshal (jwk : JWKMarshal.t) (options : KeyUnmarshalOptions.t)
  : result KeyWithMeta.t :=
  key <-
    (if String.eqb (KTY jwk) KeyTypeEC then unmarshalEC jwk options
     else if String.eqb (KTY jwk) KeyTypeOKP then unmarshalOKP jwk options
     else if String.eqb (KTY jwk) KeyTypeRSA then Ok nilKey
     else if String.eqb (KTY jwk) KeyTypeOct then unmarshalOct jwk options
     else Err (Errorf "%w: %s" ErrUnsupportedKeyType)) ;;
  Ok {| KeyWithMeta.Key := key; KeyWithMeta.KeyID := KID jwk |}.

(** [JWKSet.JSON] over this revision of [KeyMarshal]. *)
Definition JSON (snapshot : result (list KeyWithMeta.t)) : result JWKSMarshal.t :=
  JSONwith KeyMarshal snapshot.

End Legacy.

(* ================================================================== *)
(** ** Vocabulary of the statements *)

(** The end of [KeyUnmarshal] applied to what its [switch] produced:
    [meta.KeyID = jwk.KID; return meta, nil]. *)
Definition withKeyID (jwk : JWKMarshal.t) (key : result KeyValue) : result KeyWithMeta.t :=
  key <- key ;; Ok {| KeyWithMeta.Key := key; KeyWithMeta.KeyID := JWKMarshal.KID jwk |}.

(** The options [JWKSet.JSON] marshals with. *)
Definition publicOnly : KeyMarshalOptions.t :=
  {| KeyMarshalOptions.AsymmetricPrivate := false;
     KeyMarshalOptions.Symmetric := false |}.

(** What one key contributes to the key set: its record, or nothing. *)
Definition kept (marshal : KeyWithMeta.t -> result JWKMarshal.t) (meta : KeyWithMeta.t)
  : list JWKMarshal.t :=
  match marshal meta with
  | Ok jwk => [jwk]
  | _ => []
  end.

(** [marshal] accepts [meta], or rejects it as an unsupported key type. *)
Definition okOrUnsupported (marshal : KeyWithMeta.t -> result JWKMarshal.t)
    (meta : KeyWithMeta.t) : Prop :=
  match marshal meta with
  | Ok _ => True
  | Err err => errors_Is err ErrUnsupportedKeyType = true
  | Panic => False
  end.

(** [KeyUnmarshal(KeyMarshal(k, opts), opts')], for a key [k] with ID [kid]. *)
Definition roundTrip (k : KeyValue) (kid : string)
    (opts : KeyMarshalOptions.t) (opts' : KeyUnmarshalOptions.t) : result KeyWithMeta.t :=
  jwk <- KeyMarshal (NewKey k kid) opts ;; KeyUnmarshal jwk opts'.

(** The material of [k] that [KeyMarshal] emits under [opts]: a private key
    with private material withheld is emitted as its public key. *)
Definition emitted (k : KeyValue) (opts : KeyMarshalOptions.t) : KeyValue :=
  if KeyMarshalOptions.AsymmetricPrivate opts then k
  else match k with
       | ecdsaPrivateKey key => ecdsaPublicKey (ecdsa.Pub key)
       | ed25519PrivateKey key => ed25519PublicKey (skipn 32 key)
       | rsaPrivateKey key => rsaPublicKey (rsa.Pub key)
       | _ => k
       end.

(** The curves [KeyUnmarshal] knows. *)
Definition supportedCurve (c : elliptic.Curve) : Prop :=
  c = elliptic.P256 \/ c = elliptic.P384 \/ c = elliptic.P521.

(** The keys whose record [KeyUnmarshal] reads back: every integer is
    positive (so that its field is present), curves are among the three
    supported ones, Ed25519 keys have their standard sizes, an RSA private
    key has exactly two primes, no further CRT values, and passes
    [Validate], and a raw key is not empty. *)
Definition readable (k : KeyValue) : Prop :=
  match k with
  | ecdsaPublicKey key =>
      supportedCurve (ecdsa.Curve key) /\ 0 < ecdsa.X key /\ 0 < ecdsa.Y key
  | ecdsaPrivateKey key =>
      supportedCurve (ecdsa.Curve (ecdsa.Pub key)) /\
      0 < ecdsa.X (ecdsa.Pub key) /\ 0 < ecdsa.Y (ecdsa.Pub key) /\ 0 < ecdsa.D key
  | ed25519PublicKey key => List.length key = ed25519.PublicKeySize
  | ed25519PrivateKey key => List.length key = ed25519.PrivateKeySize
  | rsaPublicKey key => 0 < rsa.N key /\ 0 < rsa.E key < 2 ^ 63
  | rsaPrivateKey key =>
      (exists p q, rsa.Primes key = [p; q]) /\
      rsa.CRTValues (rsa.Precomputed key) = [] /\
      0 < rsa.D key /\
      0 < rsa.Dp (rsa.Precomputed key) /\
      0 < rsa.Dq (rsa.Precomputed key) /\
      0 < rsa.Qinv (rsa.Precomputed key) /\
      rsa.Validate key = None
  | byteSlice key => key <> []
  | nilKey | ecdsaPublicKeyValue _ | rsaPublicKeyValue _ | otherKey _ => False
  end.

(** What the options must be for the emitted material [k] to be read back:
    private material is requested when it was emitted; for RSA it is not
    requested when it was not emitted; a raw key needs [Symmetric] on both
    sides. *)
Definition requested (k : KeyValue)
    (opts : KeyMarshalOptions.t) (opts' : KeyUnmarshalOptions.t) : Prop :=
  match k with
  | ecdsaPrivateKey _ | ed25519PrivateKey _ | rsaPrivateKey _ =>
      KeyUnmarshalOptions.AsymmetricPrivate opts' = true
  | rsaPublicKey _ => KeyUnmarshalOptions.AsymmetricPrivate opts' = false
  | byteSlice _ =>
      KeyMarshalOptions.Symmetric opts = true /\
      KeyUnmarshalOptions.Symmetric opts' = true
  | _ => True
  end.

(** Characters of a string: [allChars p s] holds when [p] holds of each. *)
Fixpoint allChars (p : ascii -> bool) (s : string) : bool :=
  match s with
  | EmptyString => true
  | String c rest => p c && allChars p rest
  end.

(** [c] is not the padding character. *)
Definition notPad (c : ascii) : bool := negb (inCutset c "=").

(** A run of [n] padding characters. *)
Fixpoint padding (n : nat) : string :=
  match n with
  | O => EmptyString
  | S n' => String "="%char (padding n')
  end.

(* ================================================================== *)
(** ** Vocabulary of the further properties *)

(** No private parameter is populated: [d], [p], [q], [dp], [dq], [qi] are
    empty and [oth] has no entry. *)
Definition noPrivateFields (jwk : JWKMarshal.t) : Prop :=
  JWKMarshal.D jwk = EmptyString /\ JWKMarshal.P jwk = EmptyString /\
  JWKMarshal.Q jwk = EmptyString /\ JWKMarshal.DP jwk = EmptyString /\
  JWKMarshal.DQ jwk = EmptyString /\ JWKMarshal.QI jwk = EmptyString /\
  JWKMarshal.OTH jwk = [].

(** A string without the padding character. *)
Definition unpadded (s : string) : Prop := allChars notPad s = true.

(** Every parameter of the record that holds base64url text is unpadded. *)
Definition fieldsUnpadded (jwk : JWKMarshal.t) : Prop :=
  unpadded (JWKMarshal.X jwk) /\ unpadded (JWKMarshal.Y jwk) /\
  unpadded (JWKMarshal.D jwk) /\ unpadded (JWKMarshal.N jwk) /\
  unpadded (JWKMarshal.E jwk) /\ unpadded (JWKMarshal.P jwk) /\
  unpadded (JWKMarshal.Q jwk) /\ unpadded (JWKMarshal.DP jwk) /\
  unpadded (JWKMarshal.DQ jwk) /\ unpadded (JWKMarshal.QI jwk) /\
  unpadded (JWKMarshal.K jwk) /\
  Forall (fun o => unpadded (OtherPrimes.D o) /\ unpadded (OtherPrimes.T o) /\
                   unpadded (OtherPrimes.R o)) (JWKMarshal.OTH jwk).

(** The [kty] the codec associates with a key: the one [KeyMarshal] writes
    for it and the one under which [KeyUnmarshal] produces it. *)
Definition keyType (k : KeyValue) : option string :=
  match k with
  | ecdsaPrivateKey _ | ecdsaPublicKey _ => Some KeyTypeEC
  | ed25519PrivateKey _ | ed25519PublicKey _ => Some KeyTypeOKP
  | rsaPrivateKey _ | rsaPublicKey _ => Some KeyTypeRSA
  | byteSlice _ => Some KeyTypeOct
  | nilKey | ecdsaPublicKeyValue _ | rsaPublicKeyValue _ | otherKey _ => None
  end.

(** The two records agree on every parameter but the private ones ([d],
    [p], [q], [dp], [dq], [qi], [oth]). *)
Definition samePublicFields (jwk jwk' : JWKMarshal.t) : Prop :=
  JWKMarshal.KTY jwk = JWKMarshal.KTY jwk' /\ JWKMarshal.CRV jwk = JWKMarshal.CRV jwk' /\
  JWKMarshal.X jwk = JWKMarshal.X jwk' /\ JWKMarshal.Y jwk = JWKMarshal.Y jwk' /\
  JWKMarshal.N jwk = JWKMarshal.N jwk' /\ JWKMarshal.E jwk = JWKMarshal.E jwk' /\
  JWKMarshal.K jwk = JWKMarshal.K jwk' /\ JWKMarshal.KID jwk = JWKMarshal.KID jwk'.

(** An [oth] entry with its three parameters. *)
Definition completeOTH (o : OtherPrimes.t) : bool :=
  nonEmpty (OtherPrimes.R o) && nonEmpty (OtherPrimes.D o) && nonEmpty (OtherPrimes.T o).

(** An [oth] entry whose three parameters decode. *)
Definition decodableOTH (o : OtherPrimes.t) : Prop :=
  (exists b, base64urlTrailingPadding (OtherPrimes.D o) = Ok b) /\
  (exists b, base64urlTrailingPadding (OtherPrimes.T o) = Ok b) /\
  (exists b, base64urlTrailingPadding (OtherPrimes.R o) = Ok b).

(** A CRT value whose three integers are positive. *)
Definition positiveCRT (v : rsa.CRTValue) : Prop :=
  0 < rsa.Exp v /\ 0 < rsa.Coeff v /\ 0 < rsa.R v.

(** The private key [KeyUnmarshal] assembles from the record of [key]: the
    primes after the second are the [R] of the CRT values. *)
Definition rereadRSA (key : rsa.PrivateKey) (p q : Z) : rsa.PrivateKey :=
  {| rsa.Pub := rsa.Pub key;
     rsa.D := rsa.D key;
     rsa.Primes := p :: q :: map rsa.R (rsa.CRTValues (rsa.Precomputed key));
     rsa.Precomputed := rsa.Precomputed key |}.

(** The kinds of error [KeyUnmarshal] returns. *)
Inductive unmarshalError : error -> Prop :=
| parameterError err :
    errors_Is err ErrKeyUnmarshalParameter = true -> unmarshalError err
| unsupportedError err :
    errors_Is err ErrUnsupportedKeyType = true -> unmarshalError err
| decodingError format n :
    unmarshalError (Errorf format (CorruptInputError n))
| validationError priv verr :
    rsa.Validate priv = Some verr ->
    unmarshalError (Errorf "failed to validate %s key: %w" verr).


(** A record fit for a published key set: no private parameter, no
    symmetric secret, not of the [oct] type. *)
Definition publishable (jwk : JWKMarshal.t) : Prop :=
  noPrivateFields jwk /\ JWKMarshal.K jwk = EmptyString /\ JWKMarshal.KTY jwk <> KeyTypeOct.

(* ================================================================== *)
(** * Properties *)

Local Open Scope list_scope.

(** ** Bit arithmetic *)

Lemma lor_shiftl_add (a b k : N) :
  (b < 2 ^ k)%N -> N.lor (N.shiftl a k) b = (a * 2 ^ k + b)%N.
Proof.
  intros Hb.
  assert (Hdisj : N.land (N.shiftl a k) b = 0%N).
  { apply N.bits_inj. intros n. rewrite N.land_spec, N.bits_0.
    destruct (N.lt_ge_cases n k) as [Hlt | Hge].
    - now rewrite N.shiftl_spec_low.
    - rewrite <- (N.mod_small b (2 ^ k)) by assumption.
      rewrite N.mod_pow2_bits_high by assumption.
      apply andb_false_r. }
  rewrite <- N.lxor_lor, <- N.add_nocarry_lxor by assumption.
  now rewrite N.shiftl_mul_pow2.
Qed.

Lemma to_N_lt (b : byte) : (Byte.to_N b < 256)%N.
Proof. pose proof (Byte.to_N_bounded b). lia. Qed.

Lemma byte_of_N_spec (v : N) (b : byte) :
  (v mod 256 = Byte.to_N b)%N -> byte_of_N v = b.
Proof.
  intros H. unfold byte_of_N. now rewrite H, Byte.of_to_N.
Qed.

Lemma byte_of_to_N (b : byte) : byte_of_N (Byte.to_N b) = b.
Proof. apply byte_of_N_spec, N.mod_small, to_N_lt. Qed.

Lemma to_N_byte_of_N (v : N) : Byte.to_N (byte_of_N v) = (v mod 256)%N.
Proof.
  unfold byte_of_N.
  destruct (Byte.of_N (v mod 256)) as [b|] eqn:E.
  - now apply Byte.to_of_N.
  - apply Byte.of_N_None_iff in E.
    pose proof (N.mod_upper_bound v 256). lia.
Qed.

Lemma land63 (v : N) : N.land v 63 = (v mod 64)%N.
Proof. exact (N.land_ones v 6). Qed.

(** The value assembled from three bytes, as a sum. *)
Lemma val3_sum (a b c : byte) :
  N.lor (N.lor (N.shiftl (Byte.to_N a) 16) (N.shiftl (Byte.to_N b) 8)) (Byte.to_N c)
  = (Byte.to_N a * 65536 + Byte.to_N b * 256 + Byte.to_N c)%N.
Proof.
  pose proof (to_N_lt a). pose proof (to_N_lt b). pose proof (to_N_lt c).
  rewrite (N.shiftl_mul_pow2 (Byte.to_N b)).
  rewrite (lor_shiftl_add (Byte.to_N a) _ 16) by (simpl; lia).
  replace (Byte.to_N a * 2 ^ 16 + Byte.to_N b * 2 ^ 8)%N
    with (N.shiftl (Byte.to_N a * 256 + Byte.to_N b) 8)
    by (rewrite N.shiftl_mul_pow2; simpl; lia).
  rewrite lor_shiftl_add by (simpl; lia).
  simpl. lia.
Qed.

(** The value assembled from four 6-bit values, as a sum. *)
Lemma val4_sum (d0 d1 d2 d3 : N) :
  (d1 < 64 -> d2 < 64 -> d3 < 64 ->
   N.lor (N.lor (N.lor (N.shiftl d0 18) (N.shiftl d1 12)) (N.shiftl d2 6)) d3
   = d0 * 262144 + d1 * 4096 + d2 * 64 + d3)%N.
Proof.
  intros H1 H2 H3.
  rewrite (N.shiftl_mul_pow2 d1), (N.shiftl_mul_pow2 d2).
  rewrite (lor_shiftl_add d0 _ 18) by (simpl; lia).
  replace (d0 * 2 ^ 18 + d1 * 2 ^ 12)%N with (N.shiftl (d0 * 64 + d1) 12)
    by (rewrite N.shiftl_mul_pow2; simpl; lia).
  rewrite (lor_shiftl_add _ _ 12) by (simpl; lia).
  replace ((d0 * 64 + d1) * 2 ^ 12 + d2 * 2 ^ 6)%N
    with (N.shiftl ((d0 * 64 + d1) * 64 + d2) 6)
    by (rewrite N.shiftl_mul_pow2; simpl; lia).
  rewrite lor_shiftl_add by (simpl; lia).
  simpl. lia.
Qed.

(** ** The base64url alphabet *)

Lemma below_64 (P : N -> Prop) :
  (forall k : nat, (k < 64)%nat -> P (N.of_nat k)) ->
  forall i : N, (i < 64)%N -> P i.
Proof.
  intros H i Hi. rewrite <- (N2Nat.id i). apply H. lia.
Qed.

(** Every alphabet character decodes to its index, is not the padding
    character and is neither a line feed nor a carriage return. *)
Lemma alphabet_spec (i : N) :
  (i < 64)%N ->
  base64.decodeMap (base64.encode i) = i /\
  inCutset (base64.encode i) "=" = false.
Proof.
  revert i. apply below_64. intros k Hk.
  do 64 (destruct k as [|k]; [vm_compute; split; reflexivity|]).
  lia.
Qed.

Lemma decodeMap_encode (i : N) :
  (i < 64)%N -> base64.decodeMap (base64.encode i) = i.
Proof. intros H. apply alphabet_spec, H. Qed.

Lemma land63_lt (v : N) : (N.land v 63 < 64)%N.
Proof. rewrite land63. apply N.mod_upper_bound. discriminate. Qed.

Lemma notPad_encode (v : N) : notPad (base64.encode (N.land v 63)) = true.
Proof.
  unfold notPad. destruct (alphabet_spec _ (land63_lt v)) as [_ ->]. reflexivity.
Qed.

(** Induction on byte strings three bytes at a time, as [Encode] reads them. *)
Lemma bytes_ind3 (P : bytes -> Prop) :
  P [] ->
  (forall a, P [a]) ->
  (forall a b, P [a; b]) ->
  (forall a b c rest, P rest -> P (a :: b :: c :: rest)) ->
  forall l, P l.
Proof.
  intros H0 H1 H2 H3.
  fix IH 1. intros [|a [|b [|c rest]]].
  - exact H0.
  - apply H1.
  - apply H2.
  - apply H3, IH.
Qed.

(** The encoder never writes the padding character. *)
Lemma EncodeToString_notPad (src : bytes) :
  allChars notPad (base64.EncodeToString src) = true.
Proof.
  induction src as [|a|a b|a b c rest IH] using bytes_ind3;
    cbn [base64.EncodeToString allChars];
    rewrite ?notPad_encode; auto.
Qed.

Lemma EncodeToString_empty (src : bytes) :
  base64.EncodeToString src = EmptyString <-> src = [].
Proof.
  split; [|intros ->; reflexivity].
  destruct src as [|a [|b [|c rest]]]; cbn [base64.EncodeToString];
    [reflexivity | discriminate ..].
Qed.

(** ** Decoding *)

(** One decoding step on an alphabet character. *)
Lemma decode_alphabet (v : N) (rest : string) (si : Z) (j : nat) (dbuf : list N) :
  (v < 64)%N ->
  base64.decode (String (base64.encode v) rest) si j dbuf =
  match j with
  | S (S (S _)) =>
      bind (base64.decode rest (si + 1) 0 [])
        (fun out3 => Ok (base64.quantumBytes (dbuf ++ [v]) 4 ++ out3))
  | _ => base64.decode rest (si + 1) (S j) (dbuf ++ [v])
  end.
Proof.
  intros Hv. cbn [base64.decode].
  rewrite (decodeMap_encode v Hv).
  replace (negb (v =? 255)%N) with true
    by (symmetry; apply negb_true_iff, N.eqb_neq; lia).
  reflexivity.
Qed.

(** The three bytes of a full quantum come back. *)
Lemma quantumBytes_4 (a b c : byte) :
  let val := N.lor (N.lor (N.shiftl (Byte.to_N a) 16) (N.shiftl (Byte.to_N b) 8))
                   (Byte.to_N c) in
  base64.quantumBytes
    [N.land (N.shiftr val 18) 63; N.land (N.shiftr val 12) 63;
     N.land (N.shiftr val 6) 63; N.land val 63] 4 = [a; b; c].
Proof.
  intros val. unfold base64.quantumBytes.
  cbn [nth Nat.sub firstn].
  rewrite val4_sum by apply land63_lt.
  subst val. rewrite val3_sum, !land63, !N.shiftr_div_pow2.
  pose proof (to_N_lt a). pose proof (to_N_lt b). pose proof (to_N_lt c).
  change (2 ^ 18)%N with 262144%N. change (2 ^ 12)%N with 4096%N.
  change (2 ^ 6)%N with 64%N. change (2 ^ 16)%N with 65536%N.
  change (2 ^ 8)%N with 256%N.
  set (v := (Byte.to_N a * 65536 + Byte.to_N b * 256 + Byte.to_N c)%N).
  assert (Hv : (v / 262144 mod 64 * 262144 + v / 4096 mod 64 * 4096
                + v / 64 mod 64 * 64 + v mod 64 = v)%N).
  { assert (v < 16777216)%N by (subst v; lia).
    zify. Z.to_euclidean_division_equations. lia. }
  rewrite Hv.
  f_equal; [|f_equal; [|f_equal]]; apply byte_of_N_spec; subst v;
    zify; Z.to_euclidean_division_equations; lia.
Qed.

(** The byte of a one-byte remainder comes back from its two characters. *)
Lemma quantumBytes_2 (a : byte) :
  let val := N.shiftl (Byte.to_N a) 16 in
  base64.quantumBytes [N.land (N.shiftr val 18) 63; N.land (N.shiftr val 12) 63] 2
  = [a].
Proof.
  intros val. unfold base64.quantumBytes.
  cbn [nth Nat.sub firstn].
  rewrite val4_sum by (try apply land63_lt; reflexivity).
  subst val. rewrite !land63, !N.shiftr_div_pow2, N.shiftl_mul_pow2.
  pose proof (to_N_lt a).
  change (2 ^ 18)%N with 262144%N. change (2 ^ 12)%N with 4096%N.
  change (2 ^ 16)%N with 65536%N.
  f_equal. apply byte_of_N_spec.
  zify; Z.to_euclidean_division_equations; lia.
Qed.

(** The bytes of a two-byte remainder come back from its three characters. *)
Lemma quantumBytes_3 (a b : byte) :
  let val := N.lor (N.shiftl (Byte.to_N a) 16) (N.shiftl (Byte.to_N b) 8) in
  base64.quantumBytes
    [N.land (N.shiftr val 18) 63; N.land (N.shiftr val 12) 63;
     N.land (N.shiftr val 6) 63] 3 = [a; b].
Proof.
  intros val. unfold base64.quantumBytes.
  cbn [nth Nat.sub firstn].
  rewrite val4_sum by (try apply land63_lt; reflexivity).
  pose proof (to_N_lt a). pose proof (to_N_lt b).
  assert (Hval : val = (Byte.to_N a * 65536 + Byte.to_N b * 256)%N).
  { subst val. rewrite (N.shiftl_mul_pow2 (Byte.to_N b)).
    rewrite lor_shiftl_add by (simpl; lia). simpl. lia. }
  rewrite Hval, !land63, !N.shiftr_div_pow2.
  change (2 ^ 18)%N with 262144%N. change (2 ^ 12)%N with 4096%N.
  change (2 ^ 6)%N with 64%N. change (2 ^ 16)%N with 65536%N.
  change (2 ^ 8)%N with 256%N.
  f_equal; [|f_equal]; apply byte_of_N_spec;
    zify; Z.to_euclidean_division_equations; lia.
Qed.

(** Decoding inverts encoding, from any input offset. *)
Lemma decode_EncodeToString (src : bytes) :
  forall si, base64.decode (base64.EncodeToString src) si 0 [] = Ok src.
Proof.
  induction src as [|a|a b|a b c rest IH] using bytes_ind3; intros si.
  - reflexivity.
  - cbn [base64.EncodeToString].
    rewrite !decode_alphabet by apply land63_lt.
    cbn [base64.decode app]. now rewrite quantumBytes_2.
  - cbn [base64.EncodeToString].
    rewrite !decode_alphabet by apply land63_lt.
    cbn [base64.decode app]. now rewrite quantumBytes_3.
  - cbn [base64.EncodeToString].
    rewrite !decode_alphabet by apply land63_lt.
    rewrite IH. cbn [bind app]. now rewrite quantumBytes_4.
Qed.

Lemma DecodeString_EncodeToString (src : bytes) :
  base64.DecodeString (base64.EncodeToString src) = Ok src.
Proof. apply decode_EncodeToString. Qed.

(** ** Trimming *)

Lemma TrimRight_padding (n : nat) : TrimRight (padding n) "=" = EmptyString.
Proof. induction n as [|n IH]; [reflexivity|]. cbn. now rewrite IH. Qed.

(** Trailing padding does not change what [TrimRight] returns. *)
Lemma TrimRight_app_padding (s : string) (n : nat) :
  TrimRight (s ++ padding n)%string "=" = TrimRight s "=".
Proof.
  induction s as [|c s IH]; cbn [append TrimRight].
  - apply TrimRight_padding.
  - now rewrite IH.
Qed.

(** A string without padding characters is left as it is. *)
Lemma TrimRight_notPad (s : string) :
  allChars notPad s = true -> TrimRight s "=" = s.
Proof.
  induction s as [|c s IH]; [reflexivity|].
  cbn [allChars TrimRight]. intros [Hc Hs]%andb_true_iff.
  rewrite (IH Hs). unfold notPad in Hc. apply negb_true_iff in Hc.
  destruct s; [now rewrite Hc | reflexivity].
Qed.

Lemma TrimRight_EncodeToString (src : bytes) :
  TrimRight (base64.EncodeToString src) "=" = base64.EncodeToString src.
Proof. apply TrimRight_notPad, EncodeToString_notPad. Qed.

(** The decoder of JWK fields inverts the encoder. *)
Lemma base64urlTrailingPadding_EncodeToString (src : bytes) :
  base64urlTrailingPadding (base64.EncodeToString src) = Ok src.
Proof.
  unfold base64urlTrailingPadding.
  rewrite TrimRight_EncodeToString. apply DecodeString_EncodeToString.
Qed.

(** Trailing padding characters, however many, are ignored. *)
Lemma base64urlTrailingPadding_app_padding (s : string) (n : nat) :
  base64urlTrailingPadding (s ++ padding n)%string = base64urlTrailingPadding s.
Proof.
  unfold base64urlTrailingPadding. now rewrite TrimRight_app_padding.
Qed.

(** C8.  For every byte string [b] and every string [s] that is the unpadded
    base64url encoding of [b], decoding [s] with one or with two trailing
    padding characters appended succeeds and yields exactly [b], which is
    also what decoding [s] itself yields. *)
Theorem padding_tolerance (b : bytes) (s : string) :
  s = base64.EncodeToString b ->
  base64urlTrailingPadding (s ++ "=")%string = Ok b /\
  base64urlTrailingPadding (s ++ "==")%string = Ok b /\
  base64urlTrailingPadding s = Ok b.
Proof.
  intros ->.
  split; [|split].
  - rewrite (base64urlTrailingPadding_app_padding _ 1).
    apply base64urlTrailingPadding_EncodeToString.
  - rewrite (base64urlTrailingPadding_app_padding _ 2).
    apply base64urlTrailingPadding_EncodeToString.
  - apply base64urlTrailingPadding_EncodeToString.
Qed.

Lemma padding_tolerance_witness :
  base64urlTrailingPadding ("AAEC_w" ++ "=")%string = Ok [x00; x01; x02; xff] /\
  base64urlTrailingPadding ("AAEC_w" ++ "==")%string = Ok [x00; x01; x02; xff] /\
  base64urlTrailingPadding "AAEC_w" = Ok [x00; x01; x02; xff].
Proof.
  apply (padding_tolerance [x00; x01; x02; xff] "AAEC_w"). reflexivity.
Defined.

(** ** Big integers *)

Lemma SetBytes_snoc (buf : bytes) (b : byte) :
  big.SetBytes (buf ++ [b]) = big.SetBytes buf * 256 + Z.of_N (Byte.to_N b).
Proof.
  unfold big.SetBytes. rewrite fold_left_app. cbn [fold_left].
  rewrite lor_shiftl_add by apply to_N_lt.
  change (2 ^ 8)%N with 256%N. lia.
Qed.

Lemma SetBytes_nonneg (buf : bytes) : 0 <= big.SetBytes buf.
Proof. unfold big.SetBytes. lia. Qed.

Lemma SetBytes_natBytes (fuel : nat) :
  forall n : N, (n < 2 ^ N.of_nat fuel)%N ->
  big.SetBytes (big.natBytes fuel n) = Z.of_N n.
Proof.
  induction fuel as [|fuel IH]; intros n Hn.
  - cbn in *. assert (n = 0%N) by lia. now subst.
  - cbn [big.natBytes]. destruct (N.eqb_spec n 0) as [->|Hnz]; [reflexivity|].
    rewrite SetBytes_snoc, to_N_byte_of_N, IH.
    + zify; Z.to_euclidean_division_equations; lia.
    + rewrite Nat2N.inj_succ, N.pow_succ_r' in Hn.
      assert (n / 256 <= n / 2)%N.
      { zify; Z.to_euclidean_division_equations; lia. }
      assert (n / 2 < 2 ^ N.of_nat fuel)%N.
      { apply N.Div0.div_lt_upper_bound. lia. }
      lia.
Qed.

(** [SetBytes] reads back the absolute value that [Bytes] wrote. *)
Lemma SetBytes_Bytes (x : Z) : big.SetBytes (big.Bytes x) = Z.abs x.
Proof.
  unfold big.Bytes. rewrite SetBytes_natBytes.
  - apply N2Z.inj_abs_N.
  - rewrite N2Nat.id. apply N.size_gt.
Qed.

Lemma natBytes_nil (fuel : nat) (n : N) :
  (n < 2 ^ N.of_nat fuel)%N -> big.natBytes fuel n = [] -> n = 0%N.
Proof.
  destruct fuel as [|fuel]; cbn [big.natBytes]; intros Hn.
  - cbn in Hn. lia.
  - destruct (N.eqb_spec n 0) as [->|Hnz]; [reflexivity|].
    intros H. now apply app_eq_nil in H as [_ H].
Qed.

(** Only zero has no bytes. *)
Lemma Bytes_nil (x : Z) : big.Bytes x = [] <-> x = 0.
Proof.
  split; [|intros ->; reflexivity].
  unfold big.Bytes. intros H. apply natBytes_nil in H.
  - lia.
  - rewrite N2Nat.id. apply N.size_gt.
Qed.

(** A non-zero integer is encoded as a non-empty string. *)
Lemma bigIntToBase64RawURL_nonEmpty (x : Z) :
  x <> 0 -> isEmpty (bigIntToBase64RawURL x) = false.
Proof.
  intros Hx. unfold isEmpty, bigIntToBase64RawURL.
  apply String.eqb_neq. rewrite EncodeToString_empty, Bytes_nil. exact Hx.
Qed.

(** A positive integer comes back from its encoded form. *)
Lemma decode_bigInt (x : Z) :
  base64urlTrailingPadding (bigIntToBase64RawURL x) = Ok (big.Bytes x).
Proof. apply base64urlTrailingPadding_EncodeToString. Qed.

Lemma EncodeToString_nonEmpty (src : bytes) :
  src <> [] -> isEmpty (base64.EncodeToString src) = false.
Proof.
  intros H. unfold isEmpty. apply String.eqb_neq. now rewrite EncodeToString_empty.
Qed.

(** ** KeyMarshal *)

Section Marshal.

Import JWKMarshal.

Lemma Public_64 (key : bytes) :
  List.length key = 64%nat -> ed25519.Public key = Ok (skipn 32 key).
Proof.
  intros Hlen. unfold ed25519.Public, ed25519.PublicKeySize.
  rewrite Hlen. cbn [Nat.ltb Nat.leb].
  assert (Hpub : List.length (skipn 32 key) = 32%nat) by (rewrite length_skipn; lia).
  rewrite firstn_app, Hpub, Nat.sub_diag, firstn_O, app_nil_r.
  rewrite <- Hpub at 1. now rewrite firstn_all.
Qed.

(** C3.  For every Ed25519 private key (64 bytes: the seed, then the public
    key), [KeyMarshal] with [AsymmetricPrivate] set produces the record with
    [kty = OKP], [crv = Ed25519], [alg = EdDSA], [x] the encoding of the
    32-byte public half and [d] the encoding of exactly the 32-byte seed
    half; with [AsymmetricPrivate] clear the record is the same without
    [d]. *)
Theorem marshal_ed25519_private (key : bytes) (kid : string) (symmetric : bool) :
  List.length key = ed25519.PrivateKeySize ->
  let seed := firstn 32 key in
  let public := skipn 32 key in
  List.length seed = 32%nat /\ List.length public = 32%nat /\
  KeyMarshal (NewKey (ed25519PrivateKey key) kid)
    {| KeyMarshalOptions.AsymmetricPrivate := true;
       KeyMarshalOptions.Symmetric := symmetric |}
  = Ok {| KTY := "OKP"; CRV := "Ed25519"; ALG := "EdDSA";
          X := base64.EncodeToString public;
          D := base64.EncodeToString seed;
          KID := kid;
          Y := EmptyString; N := EmptyString; E := EmptyString;
          P := EmptyString; Q := EmptyString; DP := EmptyString;
          DQ := EmptyString; QI := EmptyString; OTH := []; K := EmptyString |} /\
  KeyMarshal (NewKey (ed25519PrivateKey key) kid)
    {| KeyMarshalOptions.AsymmetricPrivate := false;
       KeyMarshalOptions.Symmetric := symmetric |}
  = Ok {| KTY := "OKP"; CRV := "Ed25519"; ALG := "EdDSA";
          X := base64.EncodeToString public;
          D := EmptyString;
          KID := kid;
          Y := EmptyString; N := EmptyString; E := EmptyString;
          P := EmptyString; Q := EmptyString; DP := EmptyString;
          DQ := EmptyString; QI := EmptyString; OTH := []; K := EmptyString |}.
Proof.
  unfold ed25519.PrivateKeySize. intros Hlen. cbv zeta.
  split; [|split; [|split]].
  - rewrite length_firstn. lia.
  - rewrite length_skipn. lia.
  - unfold KeyMarshal. cbn [NewKey KeyWithMeta.Key KeyWithMeta.KeyID].
    rewrite (Public_64 key Hlen). reflexivity.
  - unfold KeyMarshal. cbn [NewKey KeyWithMeta.Key KeyWithMeta.KeyID].
    rewrite (Public_64 key Hlen). reflexivity.
Qed.

(** The 64-byte key whose bytes are 0, 1, ..., 63. *)
Lemma marshal_ed25519_private_witness :
  let key := map byte_of_N (map BinNat.N.of_nat (seq 0 64)) in
  List.length key = ed25519.PrivateKeySize /\
  D <$> KeyMarshal (NewKey (ed25519PrivateKey key) "k")
          {| KeyMarshalOptions.AsymmetricPrivate := true;
             KeyMarshalOptions.Symmetric := false |}
  = Ok "AAECAwQFBgcICQoLDA0ODxAREhMUFRYXGBkaGxwdHh8" /\
  X <$> KeyMarshal (NewKey (ed25519PrivateKey key) "k")
          {| KeyMarshalOptions.AsymmetricPrivate := true;
             KeyMarshalOptions.Symmetric := false |}
  = Ok "ICEiIyQlJicoKSorLC0uLzAxMjM0NTY3ODk6Ozw9Pj8".
Proof.
  intros key.
  pose proof (marshal_ed25519_private key "k" false eq_refl) as H.
  cbv zeta in H. destruct H as (_ & _ & Hm & _).
  split; [reflexivity|]. rewrite Hm. split; reflexivity.
Defined.

(** C5.  For every 32-byte public key [X], [KeyMarshal] on the Ed25519
    public key with key ID [k1] and private material withheld produces
    exactly the record with [kty = OKP], [crv = Ed25519], [alg = EdDSA],
    [x] the encoding of [X] and [kid = k1]; every other field, [d] among
    them, is empty. *)
Theorem marshal_ed25519_public (X0 : bytes) (options : KeyMarshalOptions.t) :
  List.length X0 = ed25519.PublicKeySize ->
  KeyMarshalOptions.AsymmetricPrivate options = false ->
  KeyMarshal (NewKey (ed25519PublicKey X0) "k1") options
  = Ok {| KTY := "OKP"; CRV := "Ed25519"; ALG := "EdDSA";
          X := base64.EncodeToString X0;
          KID := "k1";
          D := EmptyString;
          Y := EmptyString; N := EmptyString; E := EmptyString;
          P := EmptyString; Q := EmptyString; DP := EmptyString;
          DQ := EmptyString; QI := EmptyString; OTH := []; K := EmptyString |}.
Proof. intros _ _. reflexivity. Qed.

Lemma marshal_ed25519_public_witness :
  KeyMarshal (NewKey (ed25519PublicKey (repeat x01 32)) "k1")
    {| KeyMarshalOptions.AsymmetricPrivate := false;
       KeyMarshalOptions.Symmetric := false |}
  = Ok {| KTY := "OKP"; CRV := "Ed25519"; ALG := "EdDSA";
          X := "AQEBAQEBAQEBAQEBAQEBAQEBAQEBAQEBAQEBAQEBAQE";
          KID := "k1";
          D := EmptyString;
          Y := EmptyString; N := EmptyString; E := EmptyString;
          P := EmptyString; Q := EmptyString; DP := EmptyString;
          DQ := EmptyString; QI := EmptyString; OTH := []; K := EmptyString |}.
Proof.
  exact (marshal_ed25519_public (repeat x01 32)
           {| KeyMarshalOptions.AsymmetricPrivate := false;
              KeyMarshalOptions.Symmetric := false |} eq_refl eq_refl).
Defined.

Lemma index_not_Err {A} (s : list A) (i : nat) (err : error) : index s i <> Err err.
Proof. unfold index. destruct (nth_error s i); discriminate. Qed.

Lemma Public_not_Err (key : bytes) (err : error) : ed25519.Public key <> Err err.
Proof. unfold ed25519.Public. destruct (_ <? _)%nat; discriminate. Qed.

(** The only errors of [KeyMarshal] are of the [ErrUnsupportedKeyType]
    kind. *)
Lemma KeyMarshal_error_kind (meta : KeyWithMeta.t) (options : KeyMarshalOptions.t)
    (err : error) :
  KeyMarshal meta options = Err err -> errors_Is err ErrUnsupportedKeyType = true.
Proof.
  unfold KeyMarshal.
  destruct meta as [[| key | key | key | key | key | key | key | key | key | name] kid];
    cbn [KeyWithMeta.Key KeyWithMeta.KeyID];
    repeat match goal with
      | |- context [if ?c then _ else _] => destruct c
      | |- context [ed25519.Public ?k] =>
          let E := fresh "E" in
          destruct (ed25519.Public k) eqn:E; [| now apply Public_not_Err in E |]
      | |- context [index ?s ?i] =>
          let E := fresh "E" in
          destruct (index s i) eqn:E; [| now apply index_not_Err in E |]
      | _ => progress cbn [bind]
      end;
    try discriminate; intros [= <-]; reflexivity.
Qed.

End Marshal.

(** ** KeyUnmarshal *)

Section Unmarshal.

Import JWKMarshal.

Lemma nonEmpty_isEmpty (s : string) : nonEmpty s = true -> isEmpty s = false.
Proof. unfold nonEmpty, isEmpty. apply negb_true_iff. Qed.

Lemma KeyUnmarshal_EC (jwk : JWKMarshal.t) (options : KeyUnmarshalOptions.t) :
  KTY jwk = KeyTypeEC -> KeyUnmarshal jwk options = withKeyID jwk (unmarshalEC jwk options).
Proof. unfold KeyUnmarshal. now intros ->. Qed.

Lemma KeyUnmarshal_OKP (jwk : JWKMarshal.t) (options : KeyUnmarshalOptions.t) :
  KTY jwk = KeyTypeOKP -> KeyUnmarshal jwk options = withKeyID jwk (unmarshalOKP jwk options).
Proof. unfold KeyUnmarshal. now intros ->. Qed.

Lemma KeyUnmarshal_RSA (jwk : JWKMarshal.t) (options : KeyUnmarshalOptions.t) :
  KTY jwk = KeyTypeRSA -> KeyUnmarshal jwk options = withKeyID jwk (unmarshalRSA jwk options).
Proof. unfold KeyUnmarshal. now intros ->. Qed.

Lemma KeyUnmarshal_Oct (jwk : JWKMarshal.t) (options : KeyUnmarshalOptions.t) :
  KTY jwk = KeyTypeOct -> KeyUnmarshal jwk options = withKeyID jwk (unmarshalOct jwk options).
Proof. unfold KeyUnmarshal. now intros ->. Qed.

(** C6.  For every raw byte key, [KeyMarshal] with [Symmetric] clear fails
    with an error of the [ErrUnsupportedKeyType] kind; and for every record
    with [kty = oct], [KeyUnmarshal] with [Symmetric] clear fails with an
    error of the [ErrUnsupportedKeyType] kind. *)
Theorem symmetric_refused :
  (forall (key : bytes) (kid : string) (options : KeyMarshalOptions.t),
      KeyMarshalOptions.Symmetric options = false ->
      exists err,
        KeyMarshal (NewKey (byteSlice key) kid) options = Err err /\
        errors_Is err ErrUnsupportedKeyType = true) /\
  (forall (jwk : JWKMarshal.t) (options : KeyUnmarshalOptions.t),
      KTY jwk = "oct" ->
      KeyUnmarshalOptions.Symmetric options = false ->
      exists err,
        KeyUnmarshal jwk options = Err err /\
        errors_Is err ErrUnsupportedKeyType = true).
Proof.
  split.
  - intros key kid options Hsym. eexists. split.
    + unfold KeyMarshal. cbn [NewKey KeyWithMeta.Key]. rewrite Hsym. reflexivity.
    + reflexivity.
  - intros jwk options Hkty Hsym. eexists. split.
    + rewrite KeyUnmarshal_Oct by exact Hkty.
      unfold unmarshalOct. rewrite Hsym. reflexivity.
    + reflexivity.
Qed.

Lemma symmetric_refused_witness :
  (exists err,
      KeyMarshal (NewKey (byteSlice [x01; x02]) "hmac")
        {| KeyMarshalOptions.AsymmetricPrivate := true;
           KeyMarshalOptions.Symmetric := false |} = Err err /\
      errors_Is err ErrUnsupportedKeyType = true) /\
  (exists err,
      KeyUnmarshal (set_K "AQI" (set_KTY "oct" zero))
        {| KeyUnmarshalOptions.AsymmetricPrivate := true;
           KeyUnmarshalOptions.Symmetric := false |} = Err err /\
      errors_Is err ErrUnsupportedKeyType = true).
Proof.
  split.
  - apply (proj1 symmetric_refused). reflexivity.
  - apply (proj2 symmetric_refused); reflexivity.
Defined.

(** C4.  For every [OKP] record whose [x] decodes to a byte string of any
    length other than 32, [KeyUnmarshal] returns an error of the
    [ErrKeyUnmarshalParameter] kind; and for every [OKP] record whose [crv]
    is anything other than [Ed25519], [KeyUnmarshal] returns an error. *)
Theorem unmarshal_OKP_rejects :
  (forall (jwk : JWKMarshal.t) (options : KeyUnmarshalOptions.t) (public : bytes),
      KTY jwk = "OKP" ->
      base64urlTrailingPadding (X jwk) = Ok public ->
      List.length public <> 32%nat ->
      exists err,
        KeyUnmarshal jwk options = Err err /\
        errors_Is err ErrKeyUnmarshalParameter = true) /\
  (forall (jwk : JWKMarshal.t) (options : KeyUnmarshalOptions.t),
      KTY jwk = "OKP" ->
      CRV jwk <> "Ed25519" ->
      exists err, KeyUnmarshal jwk options = Err err).
Proof.
  split.
  - intros jwk options public Hkty Hx Hlen.
    rewrite KeyUnmarshal_OKP by exact Hkty. unfold unmarshalOKP.
    destruct (String.eqb (CRV jwk) CurveEd25519); cbn [negb].
    + destruct (isEmpty (X jwk)).
      * eexists. split; reflexivity.
      * rewrite Hx. cbn [wrapErr bind].
        apply Nat.eqb_neq in Hlen. unfold ed25519.PublicKeySize. rewrite Hlen.
        eexists. split; reflexivity.
    + eexists. split; reflexivity.
  - intros jwk options Hkty Hcrv.
    rewrite KeyUnmarshal_OKP by exact Hkty. unfold unmarshalOKP.
    apply String.eqb_neq in Hcrv. unfold CurveEd25519. rewrite Hcrv.
    eexists. reflexivity.
Qed.

Lemma unmarshal_OKP_rejects_witness :
  (exists err,
      KeyUnmarshal (set_X "AQID" (set_CRV "Ed25519" (set_KTY "OKP" zero)))
        {| KeyUnmarshalOptions.AsymmetricPrivate := false;
           KeyUnmarshalOptions.Symmetric := false |} = Err err /\
      errors_Is err ErrKeyUnmarshalParameter = true) /\
  (exists err,
      KeyUnmarshal (set_X "AQID" (set_CRV "X25519" (set_KTY "OKP" zero)))
        {| KeyUnmarshalOptions.AsymmetricPrivate := false;
           KeyUnmarshalOptions.Symmetric := false |} = Err err).
Proof.
  split.
  - apply (proj1 unmarshal_OKP_rejects) with (public := [x01; x02; x03]).
    + reflexivity.
    + reflexivity.
    + cbn. lia.
  - apply (proj2 unmarshal_OKP_rejects).
    + reflexivity.
    + discriminate.
Defined.

Lemma error_eqb_refl (err : error) : error_eqb err err = true.
Proof.
  induction err; cbn [error_eqb];
    rewrite ?Z.eqb_refl, ?String.eqb_refl, ?IHerr; reflexivity.
Qed.

Lemma errors_Is_refl (err : error) : errors_Is err err = true.
Proof. destruct err; cbn [errors_Is]; now rewrite error_eqb_refl. Qed.

Lemma errors_Is_wrapped (format : string) (err target : error) :
  errors_Is err target = true -> errors_Is (Errorf format err) target = true.
Proof. intros H. cbn [errors_Is]. rewrite H. apply orb_true_r. Qed.

(** A sentinel is in the chain of a wrapping error exactly when it is in
    the chain of the wrapped one. *)
Lemma errors_Is_Errorf (format : string) (err target : error) :
  (forall f e, target <> Errorf f e) ->
  errors_Is (Errorf format err) target = errors_Is err target.
Proof.
  intros Hsent. cbn [errors_Is].
  destruct target; try reflexivity. now destruct (Hsent format0 target).
Qed.

(** The errors of [Validate] are those of [crypto/rsa]: none of them is, or
    wraps, a sentinel of this package. *)
Lemma Validate_error_kind (priv : rsa.PrivateKey) (err : error) :
  rsa.Validate priv = Some err ->
  errors_Is err ErrKeyUnmarshalParameter = false /\
  errors_Is err ErrUnsupportedKeyType = false.
Proof.
  assert (Hexp : forall de primes, rsa.checkExponents de primes = Some err ->
                 err = errInvalidExponents).
  { intros de primes. induction primes as [|prime rest IH]; cbn; [discriminate|].
    destruct (_ =? 1); [exact IH | now intros [= <-]]. }
  unfold rsa.Validate, rsa.checkPub.
  repeat match goal with
    | |- context [if ?c then _ else _] => destruct c
    | |- context [match rsa.mulPrimes ?p ?m with _ => _ end] => destruct (rsa.mulPrimes p m)
    end;
    try (intros [= <-]; split; reflexivity).
  intros ->%Hexp. split; reflexivity.
Qed.

(** [Validate] accepts exactly the keys whose public exponent is in range,
    whose primes are above one and multiply to the modulus, and whose [d]
    inverts [e] modulo each [p - 1]. *)
Lemma Validate_None_iff (priv : rsa.PrivateKey) :
  rsa.Validate priv = None <->
  2 <= rsa.E (rsa.Pub priv) <= 2 ^ 31 - 1 /\
  Forall (fun prime => 1 < prime) (rsa.Primes priv) /\
  fold_left Z.mul (rsa.Primes priv) 1 = rsa.N (rsa.Pub priv) /\
  Forall (fun prime => (rsa.E (rsa.Pub priv) * rsa.D priv) mod (prime - 1) = 1)
    (rsa.Primes priv).
Proof.
  assert (Hmul : forall primes acc,
             match rsa.mulPrimes primes acc with
             | Some m => Forall (fun prime => 1 < prime) primes /\
                         m = fold_left Z.mul primes acc
             | None => ~ Forall (fun prime => 1 < prime) primes
             end).
  { induction primes as [|prime rest IH]; intros acc; cbn [rsa.mulPrimes fold_left].
    - split; [constructor | reflexivity].
    - destruct (Z.leb_spec prime 1) as [Hle | Hgt].
      + intros H. inversion H; lia.
      + specialize (IH (acc * prime)).
        destruct (rsa.mulPrimes rest (acc * prime)).
        * destruct IH as [IH ->]. split; [constructor; assumption | reflexivity].
        * intros H. inversion H; contradiction. }
  assert (Hexp : forall de primes,
             rsa.checkExponents de primes = None <->
             Forall (fun prime => de mod (prime - 1) = 1) primes).
  { intros de. induction primes as [|prime rest IH]; cbn [rsa.checkExponents].
    - split; [constructor | reflexivity].
    - destruct (Z.eqb_spec (de mod (prime - 1)) 1) as [Heq | Hne].
      + rewrite IH. split; [now constructor | intros H; now inversion H].
      + split; [discriminate | intros H; inversion H; contradiction]. }
  unfold rsa.Validate, rsa.checkPub.
  destruct (Z.ltb_spec (rsa.E (rsa.Pub priv)) 2); [split; [discriminate | lia]|].
  destruct (Z.gtb_spec (rsa.E (rsa.Pub priv)) (2 ^ 31 - 1)); [split; [discriminate | lia]|].
  specialize (Hmul (rsa.Primes priv) 1).
  destruct (rsa.mulPrimes (rsa.Primes priv) 1) as [m|].
  - destruct Hmul as [Hprimes ->].
    destruct (Z.eqb_spec (fold_left Z.mul (rsa.Primes priv) 1) (rsa.N (rsa.Pub priv)))
      as [Heq | Hne]; cbn [negb].
    + rewrite Hexp. intuition lia.
    + split; [discriminate | intros (_ & _ & Heq & _); contradiction].
  - split; [discriminate | intros (_ & Hprimes & _); contradiction].
Qed.

(** [Validate] rejects a key whose primes do not multiply to its modulus. *)
Lemma Validate_modulus (priv : rsa.PrivateKey) :
  fold_left Z.mul (rsa.Primes priv) 1 <> rsa.N (rsa.Pub priv) ->
  rsa.Validate priv <> None.
Proof.
  intros Hne Hvalid. apply Validate_None_iff in Hvalid as (_ & _ & Heq & _).
  contradiction.
Qed.

(** The precomputed values take no part in [Validate]. *)
Lemma Validate_Precomputed (priv : rsa.PrivateKey) (pre : rsa.PrecomputedValues) :
  rsa.Validate {| rsa.Pub := rsa.Pub priv; rsa.D := rsa.D priv;
                  rsa.Primes := rsa.Primes priv; rsa.Precomputed := pre |}
  = rsa.Validate priv.
Proof. reflexivity. Qed.

(** C2, as the code has it.  For every [RSA] record whose [n], [e] and six
    private parameters are present and decode, and whose [oth] entries
    decode, if the private key assembled from them fails the consistency
    check of [crypto/rsa] (as it does when the primes do not multiply to the
    modulus), then [KeyUnmarshal] with [AsymmetricPrivate] set returns an
    error: the validation error wrapped by "failed to validate".  That
    error is of neither the [ErrKeyUnmarshalParameter] nor the
    [ErrUnsupportedKeyType] kind. *)
Theorem unmarshal_RSA_validation_error
    (jwk : JWKMarshal.t) (options : KeyUnmarshalOptions.t)
    (n e d p q dp dq qi : bytes) (more : list Z * list rsa.CRTValue) (verr : error) :
  KTY jwk = "RSA" ->
  KeyUnmarshalOptions.AsymmetricPrivate options = true ->
  nonEmpty (N jwk) = true -> base64urlTrailingPadding (N jwk) = Ok n ->
  nonEmpty (E jwk) = true -> base64urlTrailingPadding (E jwk) = Ok e ->
  nonEmpty (D jwk) = true -> base64urlTrailingPadding (D jwk) = Ok d ->
  nonEmpty (P jwk) = true -> base64urlTrailingPadding (P jwk) = Ok p ->
  nonEmpty (Q jwk) = true -> base64urlTrailingPadding (Q jwk) = Ok q ->
  nonEmpty (DP jwk) = true -> base64urlTrailingPadding (DP jwk) = Ok dp ->
  nonEmpty (DQ jwk) = true -> base64urlTrailingPadding (DQ jwk) = Ok dq ->
  nonEmpty (QI jwk) = true -> base64urlTrailingPadding (QI jwk) = Ok qi ->
  unmarshalOTH (OTH jwk) = Ok more ->
  rsa.Validate (rsaPrivateKeyOf n e d p q dp dq qi more) = Some verr ->
  let err := Errorf "failed to validate %s key: %w" verr in
  KeyUnmarshal jwk options = Err err /\
  errors_Is err verr = true /\
  errors_Is err ErrKeyUnmarshalParameter = false /\
  errors_Is err ErrUnsupportedKeyType = false.
Proof.
  intros Hkty Hap HN Hn HE He HD Hd HP Hp HQ Hq HDP Hdp HDQ Hdq HQI Hqi Hoth Hval err.
  split.
  - rewrite KeyUnmarshal_RSA by exact Hkty. unfold unmarshalRSA.
    apply nonEmpty_isEmpty in HN, HE.
    rewrite HN, HE. cbn [orb].
    rewrite Hn, He, Hap, HD, HP, HQ, HDP, HDQ, HQI. cbn [wrapErr bind andb].
    rewrite Hd, Hp, Hq, Hdp, Hdq, Hqi, Hoth. cbn [wrapErr bind].
    rewrite Hval. reflexivity.
  - destruct (Validate_error_kind _ _ Hval) as [H1 H2].
    subst err. split; [|split].
    + apply errors_Is_wrapped, errors_Is_refl.
    + rewrite errors_Is_Errorf, H1 by discriminate. reflexivity.
    + rewrite errors_Is_Errorf, H2 by discriminate. reflexivity.
Qed.

(** The record of the key [n = 61 * 53], [e = 17], [d = 413] with [q]
    replaced by 59. *)
Lemma unmarshal_RSA_validation_error_witness :
  let jwk := set_QI "Jg" (set_DQ "MQ" (set_DP "NQ" (set_Q "Ow" (set_P "PQ"
               (set_D "AZ0" (set_E "EQ" (set_N "DKE" (set_KTY "RSA" zero)))))))) in
  let options := {| KeyUnmarshalOptions.AsymmetricPrivate := true;
                    KeyUnmarshalOptions.Symmetric := false |} in
  let err := Errorf "failed to validate %s key: %w" errInvalidModulus in
  KeyUnmarshal jwk options = Err err /\
  errors_Is err errInvalidModulus = true /\
  errors_Is err ErrKeyUnmarshalParameter = false /\
  errors_Is err ErrUnsupportedKeyType = false.
Proof.
  intros jwk options.
  apply (unmarshal_RSA_validation_error jwk options
           [x0c; xa1] [x11] [x01; x9d] [x3d] [x3b] [x35] [x31] [x26] ([], []));
    reflexivity.
Defined.

(** C2, as stated, fails: the record of the key [n = 61 * 53], [e = 17],
    [d = 413] with [q] replaced by 59 carries all six private parameters,
    its primes do not multiply to its modulus, and [KeyUnmarshal] with
    [AsymmetricPrivate] set returns an error that is not of the
    [ErrKeyUnmarshalParameter] kind. *)
Lemma unmarshal_RSA_inconsistent_not_parameter_error :
  let jwk := set_QI "Jg" (set_DQ "MQ" (set_DP "NQ" (set_Q "Ow" (set_P "PQ"
               (set_D "AZ0" (set_E "EQ" (set_N "DKE" (set_KTY "RSA" zero)))))))) in
  let options := {| KeyUnmarshalOptions.AsymmetricPrivate := true;
                    KeyUnmarshalOptions.Symmetric := false |} in
  (base64urlTrailingPadding (N jwk) = Ok (big.Bytes 3233) /\
   base64urlTrailingPadding (P jwk) = Ok (big.Bytes 61) /\
   base64urlTrailingPadding (Q jwk) = Ok (big.Bytes 59) /\
   61 * 59 <> 3233) /\
  ~ (exists err, KeyUnmarshal jwk options = Err err /\
                 errors_Is err ErrKeyUnmarshalParameter = true).
Proof.
  intros jwk options. split.
  - repeat split; try reflexivity. discriminate.
  - intros (err & Hret & Hkind).
    assert (Herr : KeyUnmarshal jwk options
                   = Err (Errorf "failed to validate %s key: %w" errInvalidModulus))
      by reflexivity.
    rewrite Herr in Hret. injection Hret as <-. discriminate Hkind.
Qed.

(** C9, as stated, fails: a record with [kty = RSA], a non-empty [n] that is
    not base64url, a non-empty [e] and no private parameter is refused with
    a decoding error when [AsymmetricPrivate] is set. *)
Lemma unmarshal_RSA_undecodable_modulus :
  let jwk := set_E "AQAB" (set_N "!" (set_KTY "RSA" zero)) in
  let options := {| KeyUnmarshalOptions.AsymmetricPrivate := true;
                    KeyUnmarshalOptions.Symmetric := false |} in
  (nonEmpty (N jwk) = true /\ nonEmpty (E jwk) = true /\ isEmpty (D jwk) = true) /\
  KeyUnmarshal jwk options
  = Err (Errorf "failed to decode %s key parameter 'n': %w" (CorruptInputError 0)).
Proof. intros jwk options. repeat split. Qed.

(** C9, as the code has it.  For every record with [kty = RSA] whose [n]
    and [e] are present and decode, and with [AsymmetricPrivate] set in the
    options: if any of the six private parameters [d], [p], [q], [dp],
    [dq], [qi] is absent, then [KeyUnmarshal] returns success with a
    [KeyWithMeta] whose [Key] is nil, neither an error nor the public
    key. *)
Theorem unmarshal_RSA_nil_key
    (jwk : JWKMarshal.t) (options : KeyUnmarshalOptions.t) (n e : bytes) :
  KTY jwk = "RSA" ->
  nonEmpty (N jwk) = true -> base64urlTrailingPadding (N jwk) = Ok n ->
  nonEmpty (E jwk) = true -> base64urlTrailingPadding (E jwk) = Ok e ->
  KeyUnmarshalOptions.AsymmetricPrivate options = true ->
  isEmpty (D jwk) || isEmpty (P jwk) || isEmpty (Q jwk)
    || isEmpty (DP jwk) || isEmpty (DQ jwk) || isEmpty (QI jwk) = true ->
  KeyUnmarshal jwk options
  = Ok {| KeyWithMeta.Key := nilKey; KeyWithMeta.KeyID := KID jwk |}.
Proof.
  intros Hkty HN Hn HE He Hap Habsent.
  rewrite KeyUnmarshal_RSA by exact Hkty. unfold unmarshalRSA.
  apply nonEmpty_isEmpty in HN, HE.
  rewrite HN, HE, Hn, He, Hap. cbn [orb wrapErr bind andb negb].
  replace (nonEmpty (D jwk) && nonEmpty (P jwk) && nonEmpty (Q jwk)
           && nonEmpty (DP jwk) && nonEmpty (DQ jwk) && nonEmpty (QI jwk)) with false.
  - reflexivity.
  - symmetry. unfold nonEmpty. fold (isEmpty (D jwk)) (isEmpty (P jwk)) (isEmpty (Q jwk))
      (isEmpty (DP jwk)) (isEmpty (DQ jwk)) (isEmpty (QI jwk)).
    rewrite <- !negb_orb. now rewrite Habsent.
Qed.

(** A public RSA record, [n = 3233] and [e = 65537]. *)
Lemma unmarshal_RSA_nil_key_witness :
  KeyUnmarshal (set_KID "k" (set_E "AQAB" (set_N "DKE" (set_KTY "RSA" zero))))
    {| KeyUnmarshalOptions.AsymmetricPrivate := true;
       KeyUnmarshalOptions.Symmetric := false |}
  = Ok {| KeyWithMeta.Key := nilKey; KeyWithMeta.KeyID := "k" |}.
Proof.
  apply (unmarshal_RSA_nil_key
           (set_KID "k" (set_E "AQAB" (set_N "DKE" (set_KTY "RSA" zero))))
           {| KeyUnmarshalOptions.AsymmetricPrivate := true;
              KeyUnmarshalOptions.Symmetric := false |}
           [x0c; xa1] [x01; x00; x01]); reflexivity.
Defined.

Lemma curveOfCRV_supported (crv : string) :
  crv = "P-256" \/ crv = "P-384" \/ crv = "P-521" ->
  exists curve, curveOfCRV crv = Ok curve /\ elliptic.Name curve = crv /\
                (curve = elliptic.P256 \/ curve = elliptic.P384 \/ curve = elliptic.P521).
Proof.
  intros [-> | [-> | ->]]; eexists; (split; [reflexivity|]); split; auto.
Qed.

(** C10.  For every record with [kty = EC], [crv] one of [P-256], [P-384],
    [P-521], and [x] and [y] present and decodable, [KeyUnmarshal] with
    [AsymmetricPrivate] clear returns success with the public key on the
    named curve whose coordinates are the decoded [x] and [y].  Nothing is
    asked of the point: whether it lies on the curve is not checked. *)
Theorem unmarshal_EC_public_unchecked
    (jwk : JWKMarshal.t) (options : KeyUnmarshalOptions.t) (x y : bytes) :
  KTY jwk = "EC" ->
  CRV jwk = "P-256" \/ CRV jwk = "P-384" \/ CRV jwk = "P-521" ->
  nonEmpty (X jwk) = true -> base64urlTrailingPadding (X jwk) = Ok x ->
  nonEmpty (Y jwk) = true -> base64urlTrailingPadding (Y jwk) = Ok y ->
  KeyUnmarshalOptions.AsymmetricPrivate options = false ->
  exists curve,
    (curve = elliptic.P256 \/ curve = elliptic.P384 \/ curve = elliptic.P521) /\
    elliptic.Name curve = CRV jwk /\
    KeyUnmarshal jwk options
    = Ok {| KeyWithMeta.Key :=
              ecdsaPublicKey {| ecdsa.Curve := curve;
                                ecdsa.X := big.SetBytes x;
                                ecdsa.Y := big.SetBytes y |};
            KeyWithMeta.KeyID := KID jwk |}.
Proof.
  intros Hkty Hcrv HX Hx HY Hy Hap.
  destruct (curveOfCRV_supported _ Hcrv) as (curve & Hcurve & Hname & Hstd).
  exists curve. split; [exact Hstd|]. split; [exact Hname|].
  rewrite KeyUnmarshal_EC by exact Hkty. unfold unmarshalEC.
  assert (HC : isEmpty (CRV jwk) = false).
  { unfold isEmpty. apply String.eqb_neq. destruct Hcrv as [-> | [-> | ->]]; discriminate. }
  apply nonEmpty_isEmpty in HX, HY.
  rewrite HC, HX, HY, Hx, Hy, Hcurve, Hap. reflexivity.
Qed.

(** The point (1, 1) is not on [P-256], and is accepted there. *)
Lemma unmarshal_EC_public_unchecked_witness :
  elliptic.IsOnCurve elliptic.P256 1 1 = false /\
  exists curve,
    (curve = elliptic.P256 \/ curve = elliptic.P384 \/ curve = elliptic.P521) /\
    elliptic.Name curve = "P-256" /\
    KeyUnmarshal (set_Y "AQ" (set_X "AQ" (set_CRV "P-256" (set_KTY "EC" zero))))
      {| KeyUnmarshalOptions.AsymmetricPrivate := false;
         KeyUnmarshalOptions.Symmetric := false |}
    = Ok {| KeyWithMeta.Key :=
              ecdsaPublicKey {| ecdsa.Curve := curve; ecdsa.X := 1; ecdsa.Y := 1 |};
            KeyWithMeta.KeyID := EmptyString |}.
Proof.
  split; [reflexivity|].
  apply (unmarshal_EC_public_unchecked
           (set_Y "AQ" (set_X "AQ" (set_CRV "P-256" (set_KTY "EC" zero))))
           {| KeyUnmarshalOptions.AsymmetricPrivate := false;
              KeyUnmarshalOptions.Symmetric := false |}
           [x01] [x01]); try reflexivity.
  left. reflexivity.
Defined.

End Unmarshal.

(** ** Key-set assembly *)

Lemma marshalKeys_ok (marshal : KeyWithMeta.t -> result JWKMarshal.t)
    (keys : list KeyWithMeta.t) :
  Forall (okOrUnsupported marshal) keys ->
  forall acc, marshalKeys marshal keys acc = Ok (acc ++ flat_map (kept marshal) keys).
Proof.
  induction 1 as [|meta rest Hmeta _ IH]; intros acc; cbn [marshalKeys flat_map].
  - now rewrite app_nil_r.
  - unfold okOrUnsupported in Hmeta. unfold kept at 1.
    destruct (marshal meta) as [jwk | err |]; [| |contradiction].
    + rewrite IH. now rewrite <- app_assoc.
    + rewrite Hmeta, IH. reflexivity.
Qed.

Lemma marshalKeys_abort (marshal : KeyWithMeta.t -> result JWKMarshal.t)
    (pre : list KeyWithMeta.t) (meta : KeyWithMeta.t) (post : list KeyWithMeta.t)
    (err : error) :
  Forall (okOrUnsupported marshal) pre ->
  marshal meta = Err err ->
  errors_Is err ErrUnsupportedKeyType = false ->
  forall acc,
    marshalKeys marshal (pre ++ meta :: post) acc
    = Err (Errorf "failed to marshal key: %w" err).
Proof.
  intros Hpre Hmeta Hkind.
  induction Hpre as [|first rest Hfirst _ IH]; intros acc; cbn [app marshalKeys].
  - now rewrite Hmeta, Hkind.
  - unfold okOrUnsupported in Hfirst.
    destruct (marshal first) as [jwk | err' |]; [| |contradiction].
    + apply IH.
    + rewrite Hfirst. apply IH.
Qed.

(** With the options of [JSON], [KeyMarshal] accepts a key or rejects it as
    unsupported, unless it panics. *)
Lemma KeyMarshal_okOrUnsupported (meta : KeyWithMeta.t) :
  KeyMarshal meta publicOnly <> Panic ->
  okOrUnsupported (fun meta => KeyMarshal meta publicOnly) meta.
Proof.
  intros Hnp. unfold okOrUnsupported.
  destruct (KeyMarshal meta publicOnly) as [jwk | err |] eqn:E.
  - exact I.
  - exact (KeyMarshal_error_kind _ _ _ E).
  - contradiction.
Qed.

Lemma JSONwith_ok
    (KeyMarshal : KeyWithMeta.t -> KeyMarshalOptions.t -> result JWKMarshal.t)
    (keys : list KeyWithMeta.t) :
  Forall (okOrUnsupported (fun meta => KeyMarshal meta publicOnly)) keys ->
  JSONwith KeyMarshal (Ok keys)
  = Ok {| JWKSMarshal.Keys :=
            flat_map (kept (fun meta => KeyMarshal meta publicOnly)) keys |}.
Proof.
  intros Hkeys. unfold JSONwith. cbn [wrapErr bind]. fold publicOnly.
  now rewrite marshalKeys_ok.
Qed.

(** C7.  The key-set assembly marshals each key of the snapshot public-only
    and, in snapshot order, keeps the records of the keys [KeyMarshal]
    accepts and drops the keys it rejects with [ErrUnsupportedKeyType]; it
    stops at the first key rejected with any other error and returns that
    error (wrapped), as it returns the error of a failed snapshot read.
    The first three parts hold whatever function [JSON] marshals with; the
    last two are about [KeyMarshal], whose only errors are of the
    [ErrUnsupportedKeyType] kind: in particular a snapshot of one supported
    and one unsupported key yields a one-element [keys] array. *)
Theorem JSON_assembly :
  (forall (marshal : KeyWithMeta.t -> KeyMarshalOptions.t -> result JWKMarshal.t)
          (keys : list KeyWithMeta.t),
      Forall (okOrUnsupported (fun meta => marshal meta publicOnly)) keys ->
      JSONwith marshal (Ok keys)
      = Ok {| JWKSMarshal.Keys :=
                flat_map (kept (fun meta => marshal meta publicOnly)) keys |}) /\
  (forall (marshal : KeyWithMeta.t -> KeyMarshalOptions.t -> result JWKMarshal.t)
          (pre : list KeyWithMeta.t) (meta : KeyWithMeta.t)
          (post : list KeyWithMeta.t) (err : error),
      Forall (okOrUnsupported (fun meta => marshal meta publicOnly)) pre ->
      marshal meta publicOnly = Err err ->
      errors_Is err ErrUnsupportedKeyType = false ->
      JSONwith marshal (Ok (pre ++ meta :: post))
      = Err (Errorf "failed to marshal key: %w" err)) /\
  (forall (marshal : KeyWithMeta.t -> KeyMarshalOptions.t -> result JWKMarshal.t)
          (err : error),
      JSONwith marshal (Err err)
      = Err (Errorf "failed to read snapshot of all keys from storage: %w" err)) /\
  (forall keys : list KeyWithMeta.t,
      Forall (fun meta => KeyMarshal meta publicOnly <> Panic) keys ->
      JSON (Ok keys)
      = Ok {| JWKSMarshal.Keys :=
                flat_map (kept (fun meta => KeyMarshal meta publicOnly)) keys |}) /\
  (forall (supported unsupported : KeyWithMeta.t) (jwk : JWKMarshal.t) (err : error),
      KeyMarshal supported publicOnly = Ok jwk ->
      KeyMarshal unsupported publicOnly = Err err ->
      errors_Is err ErrUnsupportedKeyType = true /\
      JSON (Ok [supported; unsupported]) = Ok {| JWKSMarshal.Keys := [jwk] |} /\
      JSON (Ok [unsupported; supported]) = Ok {| JWKSMarshal.Keys := [jwk] |}).
Proof.
  assert (Hall : forall keys : list KeyWithMeta.t,
             Forall (fun meta => KeyMarshal meta publicOnly <> Panic) keys ->
             JSON (Ok keys)
             = Ok {| JWKSMarshal.Keys :=
                       flat_map (kept (fun meta => KeyMarshal meta publicOnly)) keys |}).
  { intros keys Hkeys. apply JSONwith_ok.
    eapply Forall_impl; [|exact Hkeys]. apply KeyMarshal_okOrUnsupported. }
  split; [exact JSONwith_ok|]. split; [|split; [|split; [exact Hall|]]].
  - intros marshal pre meta post err Hpre Hmeta Hkind.
    unfold JSONwith. cbn [wrapErr bind]. fold publicOnly.
    now rewrite (marshalKeys_abort _ pre meta post err Hpre Hmeta Hkind).
  - reflexivity.
  - intros supported unsupported jwk err Hs Hu.
    split; [exact (KeyMarshal_error_kind _ _ _ Hu)|].
    split; rewrite Hall.
    + cbn [flat_map]. unfold kept. now rewrite Hs, Hu.
    + repeat constructor; congruence.
    + cbn [flat_map]. unfold kept. now rewrite Hs, Hu.
    + repeat constructor; congruence.
Qed.

(** An Ed25519 public key is kept and a key of an unknown type is
    dropped. *)
Lemma JSON_assembly_witness :
  let jwk := JWKMarshal.set_KID "k1"
               (JWKMarshal.set_KTY "OKP"
                  (JWKMarshal.set_X "AQEBAQEBAQEBAQEBAQEBAQEBAQEBAQEBAQEBAQEBAQE"
                     (JWKMarshal.set_CRV "Ed25519"
                        (JWKMarshal.set_ALG "EdDSA" JWKMarshal.zero)))) in
  JSON (Ok [NewKey (ed25519PublicKey (repeat x01 32)) "k1"; NewKey (otherKey "string") "s"])
  = Ok {| JWKSMarshal.Keys := [jwk] |} /\
  JSON (Ok [NewKey (otherKey "string") "s"; NewKey (ed25519PublicKey (repeat x01 32)) "k1"])
  = Ok {| JWKSMarshal.Keys := [jwk] |}.
Proof.
  intros jwk.
  apply (proj2 (proj2 (proj2 (proj2 JSON_assembly)))
           (NewKey (ed25519PublicKey (repeat x01 32)) "k1")
           (NewKey (otherKey "string") "s") jwk
           (Errorf "%w: %T" ErrUnsupportedKeyType)); reflexivity.
Defined.

(** ** Round trip *)

Section RoundTrip.

Import JWKMarshal.

Lemma SetBytes_Bytes_nonneg (x : Z) : 0 <= x -> big.SetBytes (big.Bytes x) = x.
Proof. intros H. rewrite SetBytes_Bytes. lia. Qed.

Lemma int_Uint64 (x : Z) : 0 <= x < 2 ^ 63 -> int (big.Uint64 x) = x.
Proof.
  intros H. unfold int, big.Uint64.
  rewrite Z.abs_eq, Z.mod_small by lia.
  destruct (Z.ltb_spec x (2 ^ 63)); lia.
Qed.

Lemma supportedCurve_name (c : elliptic.Curve) :
  supportedCurve c ->
  isEmpty (elliptic.Name c) = false /\ curveOfCRV (elliptic.Name c) = Ok c.
Proof. intros [-> | [-> | ->]]; split; reflexivity. Qed.

(** The fields of a record built by field assignments. *)
Ltac fields :=
  cbn [ALG CRV D DP DQ E K KID KTY N OTH P Q QI X Y
       set_ALG set_CRV set_D set_DP set_DQ set_E set_K set_KID set_KTY set_N
       set_OTH set_P set_Q set_QI set_X set_Y zero].

Lemma bigInt_present (x : Z) : x <> 0 -> nonEmpty (bigIntToBase64RawURL x) = true.
Proof.
  intros H. unfold nonEmpty. fold (isEmpty (bigIntToBase64RawURL x)).
  now rewrite bigIntToBase64RawURL_nonEmpty.
Qed.

Lemma bytes_present (key : bytes) (n : nat) :
  List.length key = S n -> nonEmpty (base64.EncodeToString key) = true.
Proof.
  intros H. unfold nonEmpty. fold (isEmpty (base64.EncodeToString key)).
  rewrite EncodeToString_nonEmpty; [reflexivity | now destruct key].
Qed.

(** A field holding an encoded positive integer is present and decodes. *)
Ltac bigInts :=
  rewrite ?bigIntToBase64RawURL_nonEmpty, ?bigInt_present by lia;
  rewrite ?decode_bigInt;
  cbn [wrapErr bind orb andb negb].

Lemma roundTrip_EC_public (key : ecdsa.PublicKey) (kid : string)
    (opts : KeyMarshalOptions.t) (opts' : KeyUnmarshalOptions.t) :
  readable (ecdsaPublicKey key) ->
  roundTrip (ecdsaPublicKey key) kid opts opts' = Ok (NewKey (ecdsaPublicKey key) kid).
Proof.
  destruct key as [curve x y]. cbn [readable ecdsa.Curve ecdsa.X ecdsa.Y].
  intros (Hcurve & Hx & Hy).
  destruct (supportedCurve_name _ Hcurve) as [Hname Hcrv].
  unfold roundTrip, KeyMarshal.
  cbn [NewKey KeyWithMeta.Key KeyWithMeta.KeyID bind ecdsa.Curve ecdsa.X ecdsa.Y].
  rewrite KeyUnmarshal_EC by reflexivity. unfold unmarshalEC. fields.
  rewrite Hname. bigInts. rewrite Hcrv. cbn [bind].
  rewrite andb_false_r, !SetBytes_Bytes_nonneg by lia. reflexivity.
Qed.

Lemma roundTrip_EC_private (key : ecdsa.PrivateKey) (kid : string)
    (opts : KeyMarshalOptions.t) (opts' : KeyUnmarshalOptions.t) :
  readable (emitted (ecdsaPrivateKey key) opts) ->
  requested (emitted (ecdsaPrivateKey key) opts) opts opts' ->
  roundTrip (ecdsaPrivateKey key) kid opts opts'
  = Ok (NewKey (emitted (ecdsaPrivateKey key) opts) kid).
Proof.
  destruct key as [[curve x y] d]. unfold emitted, roundTrip, KeyMarshal.
  cbn [NewKey KeyWithMeta.Key KeyWithMeta.KeyID ecdsa.Pub ecdsa.Curve ecdsa.X ecdsa.Y ecdsa.D].
  destruct (KeyMarshalOptions.AsymmetricPrivate opts);
    cbn [readable requested bind ecdsa.Pub ecdsa.Curve ecdsa.X ecdsa.Y ecdsa.D].
  - intros (Hcurve & Hx & Hy & Hd) Hap.
    destruct (supportedCurve_name _ Hcurve) as [Hname Hcrv].
    rewrite KeyUnmarshal_EC by reflexivity. unfold unmarshalEC. fields.
    rewrite Hname. bigInts. rewrite Hcrv, Hap. cbn [bind andb]. bigInts.
    rewrite !SetBytes_Bytes_nonneg by lia. reflexivity.
  - intros (Hcurve & Hx & Hy) _.
    destruct (supportedCurve_name _ Hcurve) as [Hname Hcrv].
    rewrite KeyUnmarshal_EC by reflexivity. unfold unmarshalEC. fields.
    rewrite Hname. bigInts. rewrite Hcrv. cbn [bind].
    rewrite andb_false_r, !SetBytes_Bytes_nonneg by lia. reflexivity.
Qed.

Lemma nonEmpty_of_length (key : bytes) (n : nat) :
  List.length key = S n -> isEmpty (base64.EncodeToString key) = false.
Proof. intros H. apply EncodeToString_nonEmpty. now destruct key. Qed.

Lemma roundTrip_Ed25519_public (key : bytes) (kid : string)
    (opts : KeyMarshalOptions.t) (opts' : KeyUnmarshalOptions.t) :
  readable (ed25519PublicKey key) ->
  roundTrip (ed25519PublicKey key) kid opts opts' = Ok (NewKey (ed25519PublicKey key) kid).
Proof.
  cbn [readable]. unfold ed25519.PublicKeySize. intros Hlen.
  unfold roundTrip, KeyMarshal. cbn [NewKey KeyWithMeta.Key KeyWithMeta.KeyID bind].
  rewrite KeyUnmarshal_OKP by reflexivity. unfold unmarshalOKP. fields.
  rewrite (nonEmpty_of_length _ _ Hlen), base64urlTrailingPadding_EncodeToString.
  cbn [String.eqb negb wrapErr bind]. unfold ed25519.PublicKeySize.
  rewrite Hlen, andb_false_r. reflexivity.
Qed.

Lemma roundTrip_Ed25519_private (key : bytes) (kid : string)
    (opts : KeyMarshalOptions.t) (opts' : KeyUnmarshalOptions.t) :
  readable (emitted (ed25519PrivateKey key) opts) ->
  requested (emitted (ed25519PrivateKey key) opts) opts opts' ->
  roundTrip (ed25519PrivateKey key) kid opts opts'
  = Ok (NewKey (emitted (ed25519PrivateKey key) opts) kid).
Proof.
  unfold emitted, roundTrip, KeyMarshal.
  cbn [NewKey KeyWithMeta.Key KeyWithMeta.KeyID].
  unfold ed25519.PublicKeySize, ed25519.PrivateKeySize.
  destruct (KeyMarshalOptions.AsymmetricPrivate opts); cbn [readable requested];
    unfold ed25519.PublicKeySize, ed25519.PrivateKeySize.
  - intros Hlen Hap. rewrite (Public_64 key Hlen). cbn [bind].
    assert (Hpub : List.length (skipn 32 key) = 32%nat) by (rewrite length_skipn; lia).
    assert (Hseed : List.length (firstn 32 key) = 32%nat) by (rewrite length_firstn; lia).
    rewrite KeyUnmarshal_OKP by reflexivity. unfold unmarshalOKP. fields.
    rewrite (nonEmpty_of_length _ _ Hpub), base64urlTrailingPadding_EncodeToString.
    cbn [String.eqb negb wrapErr bind]. unfold ed25519.PublicKeySize.
    rewrite Hpub, Hap. cbn [Nat.eqb negb andb].
    rewrite (bytes_present _ _ Hseed).
    rewrite base64urlTrailingPadding_EncodeToString. cbn [negb wrapErr bind].
    rewrite firstn_skipn. unfold ed25519.PrivateKeySize. rewrite Hlen. reflexivity.
  - intros Hpub _.
    assert (Hlen : List.length key = 64%nat) by (rewrite length_skipn in Hpub; lia).
    rewrite (Public_64 key Hlen). cbn [bind].
    rewrite KeyUnmarshal_OKP by reflexivity. unfold unmarshalOKP. fields.
    rewrite (nonEmpty_of_length _ _ Hpub), base64urlTrailingPadding_EncodeToString.
    cbn [String.eqb negb wrapErr bind]. unfold ed25519.PublicKeySize.
    rewrite Hpub, andb_false_r. reflexivity.
Qed.

Lemma roundTrip_bytes (key : bytes) (kid : string)
    (opts : KeyMarshalOptions.t) (opts' : KeyUnmarshalOptions.t) :
  readable (byteSlice key) ->
  requested (byteSlice key) opts opts' ->
  roundTrip (byteSlice key) kid opts opts' = Ok (NewKey (byteSlice key) kid).
Proof.
  cbn [readable requested]. intros Hkey [Hsym Hsym'].
  unfold roundTrip, KeyMarshal. cbn [NewKey KeyWithMeta.Key KeyWithMeta.KeyID].
  rewrite Hsym. cbn [bind].
  rewrite KeyUnmarshal_Oct by reflexivity. unfold unmarshalOct. fields.
  rewrite Hsym', (EncodeToString_nonEmpty _ Hkey), base64urlTrailingPadding_EncodeToString.
  reflexivity.
Qed.

Lemma roundTrip_RSA_public_key (key : rsa.PublicKey) (kid : string)
    (opts : KeyMarshalOptions.t) (opts' : KeyUnmarshalOptions.t) :
  readable (rsaPublicKey key) ->
  requested (rsaPublicKey key) opts opts' ->
  roundTrip (rsaPublicKey key) kid opts opts' = Ok (NewKey (rsaPublicKey key) kid).
Proof.
  destruct key as [n e]. cbn [readable requested rsa.N rsa.E]. intros [Hn He] Hap.
  unfold roundTrip, KeyMarshal.
  cbn [NewKey KeyWithMeta.Key KeyWithMeta.KeyID bind rsa.N rsa.E].
  rewrite KeyUnmarshal_RSA by reflexivity. unfold unmarshalRSA. fields.
  bigInts. rewrite Hap. cbn [andb negb].
  rewrite !SetBytes_Bytes_nonneg, int_Uint64 by lia. reflexivity.
Qed.

(** What [Validate] establishes of a two-prime key. *)
Lemma Validate_two_primes (key : rsa.PrivateKey) (p q : Z) :
  rsa.Primes key = [p; q] ->
  rsa.Validate key = None ->
  2 <= rsa.E (rsa.Pub key) <= 2 ^ 31 - 1 /\ 1 < p /\ 1 < q /\
  rsa.N (rsa.Pub key) = p * q.
Proof.
  unfold rsa.Validate, rsa.checkPub. intros ->. cbn [rsa.mulPrimes].
  destruct (Z.ltb_spec (rsa.E (rsa.Pub key)) 2); [discriminate|].
  destruct (Z.gtb_spec (rsa.E (rsa.Pub key)) (2 ^ 31 - 1)); [discriminate|].
  destruct (Z.leb_spec p 1); [discriminate|].
  destruct (Z.leb_spec q 1); [discriminate|].
  destruct (Z.eqb_spec (1 * p * q) (rsa.N (rsa.Pub key))); [|discriminate].
  intros _. lia.
Qed.

Lemma roundTrip_RSA_private (key : rsa.PrivateKey) (kid : string)
    (opts : KeyMarshalOptions.t) (opts' : KeyUnmarshalOptions.t) :
  readable (emitted (rsaPrivateKey key) opts) ->
  requested (emitted (rsaPrivateKey key) opts) opts opts' ->
  roundTrip (rsaPrivateKey key) kid opts opts'
  = Ok (NewKey (emitted (rsaPrivateKey key) opts) kid).
Proof.
  unfold emitted.
  destruct (KeyMarshalOptions.AsymmetricPrivate opts) eqn:Hopts.
  - destruct key as [[n e] d primes [dp dq qinv crt]].
    cbn [readable requested rsa.Pub rsa.N rsa.E rsa.D rsa.Primes rsa.Precomputed
         rsa.Dp rsa.Dq rsa.Qinv rsa.CRTValues].
    intros ((p & q & ->) & -> & Hd & Hdp & Hdq & Hqinv & Hvalid) Hap.
    pose proof (fun H => Validate_two_primes _ p q H Hvalid) as Hv.
    destruct (Hv eq_refl) as (He & Hp & Hq & Hn). clear Hv.
    cbn [rsa.Pub rsa.N rsa.E] in He, Hn.
    unfold roundTrip, KeyMarshal.
    cbn [NewKey KeyWithMeta.Key KeyWithMeta.KeyID rsa.Pub rsa.N rsa.E rsa.D
         rsa.Primes rsa.Precomputed rsa.Dp rsa.Dq rsa.Qinv rsa.CRTValues].
    rewrite Hopts. cbn [index nth_error bind map].
    rewrite KeyUnmarshal_RSA by reflexivity. unfold unmarshalRSA. fields.
    assert (0 < n) by nia.
    bigInts. rewrite Hap. cbn [andb]. bigInts.
    cbn [unmarshalOTH bind]. unfold rsaPrivateKeyOf. cbn [fst snd].
    rewrite !SetBytes_Bytes_nonneg, int_Uint64 by lia.
    rewrite Hvalid. reflexivity.
  - intros Hread Hreq.
    rewrite <- (roundTrip_RSA_public_key (rsa.Pub key) kid opts opts' Hread Hreq).
    unfold roundTrip, KeyMarshal.
    cbn [NewKey KeyWithMeta.Key KeyWithMeta.KeyID]. now rewrite Hopts.
Qed.

(** C1, as the code has it.  For every key [k] of a supported type and all
    options, if the material [KeyMarshal] emits for [k] is readable (see
    [readable]) and the unmarshal options request it (see [requested]),
    then unmarshalling the marshalled record yields exactly that material
    under the same key ID: the same curve and coordinates, scalar or seed,
    modulus, exponents, primes and CRT values, or secret bytes. *)
Theorem roundTrip_readable (k : KeyValue) (kid : string)
    (opts : KeyMarshalOptions.t) (opts' : KeyUnmarshalOptions.t) :
  readable (emitted k opts) ->
  requested (emitted k opts) opts opts' ->
  roundTrip k kid opts opts' = Ok (NewKey (emitted k opts) kid).
Proof.
  destruct k as [| key | key | key | key | key | key | key | key | key | name].
  - unfold emitted. now destruct (KeyMarshalOptions.AsymmetricPrivate opts).
  - apply roundTrip_EC_private.
  - replace (emitted (ecdsaPublicKey key) opts) with (ecdsaPublicKey key)
      by (unfold emitted; now destruct (KeyMarshalOptions.AsymmetricPrivate opts)).
    intros H _. now apply roundTrip_EC_public.
  - apply roundTrip_Ed25519_private.
  - replace (emitted (ed25519PublicKey key) opts) with (ed25519PublicKey key)
      by (unfold emitted; now destruct (KeyMarshalOptions.AsymmetricPrivate opts)).
    intros H _. now apply roundTrip_Ed25519_public.
  - apply roundTrip_RSA_private.
  - replace (emitted (rsaPublicKey key) opts) with (rsaPublicKey key)
      by (unfold emitted; now destruct (KeyMarshalOptions.AsymmetricPrivate opts)).
    apply roundTrip_RSA_public_key.
  - replace (emitted (byteSlice key) opts) with (byteSlice key)
      by (unfold emitted; now destruct (KeyMarshalOptions.AsymmetricPrivate opts)).
    apply roundTrip_bytes.
  - unfold emitted. now destruct (KeyMarshalOptions.AsymmetricPrivate opts).
  - unfold emitted. now destruct (KeyMarshalOptions.AsymmetricPrivate opts).
  - unfold emitted. now destruct (KeyMarshalOptions.AsymmetricPrivate opts).
Qed.

(** The RSA private key [n = 61 * 53], [e = 17], [d = 413], marshalled and
    unmarshalled with private material. *)
Lemma roundTrip_readable_witness :
  let key :=
    {| rsa.Pub := {| rsa.N := 3233; rsa.E := 17 |};
       rsa.D := 413;
       rsa.Primes := [61; 53];
       rsa.Precomputed :=
         {| rsa.Dp := 53; rsa.Dq := 49; rsa.Qinv := 38; rsa.CRTValues := [] |} |} in
  roundTrip (rsaPrivateKey key) "k"
    {| KeyMarshalOptions.AsymmetricPrivate := true;
       KeyMarshalOptions.Symmetric := false |}
    {| KeyUnmarshalOptions.AsymmetricPrivate := true;
       KeyUnmarshalOptions.Symmetric := false |}
  = Ok (NewKey (rsaPrivateKey key) "k").
Proof.
  intros key.
  apply (roundTrip_readable (rsaPrivateKey key) "k"
           {| KeyMarshalOptions.AsymmetricPrivate := true;
              KeyMarshalOptions.Symmetric := false |}
           {| KeyUnmarshalOptions.AsymmetricPrivate := true;
              KeyUnmarshalOptions.Symmetric := false |}).
  - cbn [emitted KeyMarshalOptions.AsymmetricPrivate readable].
    split; [now exists 61, 53|]. repeat split; reflexivity.
  - reflexivity.
Defined.

(** C1, as stated, fails by what [KeyUnmarshal] is written to refuse.
    (1) An empty raw key is marshalled to a record without [k], which is
    refused.  (2) The base point of P-224, a valid ECDSA public key, is
    marshalled with [crv = P-224], a curve that is refused.  In both cases
    the unmarshal options request as much as was emitted. *)
Lemma roundTrip_refused :
  roundTrip (byteSlice []) "k"
    {| KeyMarshalOptions.AsymmetricPrivate := false;
       KeyMarshalOptions.Symmetric := true |}
    {| KeyUnmarshalOptions.AsymmetricPrivate := false;
       KeyUnmarshalOptions.Symmetric := true |}
  = Err (Errorf "%w: %s requires parameter 'k'" ErrKeyUnmarshalParameter) /\
  let G := {| ecdsa.Curve := elliptic.P224;
              ecdsa.X := 0xb70e0cbd6bb4bf7f321390b94a03c1d356c21122343280d6115c1d21;
              ecdsa.Y := 0xbd376388b5f723fb4c22dfe6cd4375a05a07476444d5819985007e34 |} in
  elliptic.IsOnCurve (ecdsa.Curve G) (ecdsa.X G) (ecdsa.Y G) = true /\
  roundTrip (ecdsaPublicKey G) "k"
    {| KeyMarshalOptions.AsymmetricPrivate := false;
       KeyMarshalOptions.Symmetric := false |}
    {| KeyUnmarshalOptions.AsymmetricPrivate := false;
       KeyUnmarshalOptions.Symmetric := false |}
  = Err (Errorf "%w: unsupported curve type %q" ErrKeyUnmarshalParameter).
Proof. repeat split; vm_compute; reflexivity. Qed.

(** Two more round trips that fail, on the RSA path.  (1) An RSA public key
    unmarshalled with [AsymmetricPrivate] set comes back as a nil key.
    (2) A valid three-prime private key ([n = 11 * 13 * 17], [e = 7],
    [d = 103]) is marshalled with its extra CRT value, whose [r] is the
    product [11 * 13] of the earlier primes; [KeyUnmarshal] takes that [r]
    for the third prime, and validation fails. *)
Lemma roundTrip_RSA_failures :
  roundTrip (rsaPublicKey {| rsa.N := 3233; rsa.E := 17 |}) "k"
    {| KeyMarshalOptions.AsymmetricPrivate := false;
       KeyMarshalOptions.Symmetric := false |}
    {| KeyUnmarshalOptions.AsymmetricPrivate := true;
       KeyUnmarshalOptions.Symmetric := false |}
  = Ok (NewKey nilKey "k") /\
  let key :=
    {| rsa.Pub := {| rsa.N := 2431; rsa.E := 7 |};
       rsa.D := 103;
       rsa.Primes := [11; 13; 17];
       rsa.Precomputed :=
         {| rsa.Dp := 3; rsa.Dq := 7; rsa.Qinv := 6;
            rsa.CRTValues := [{| rsa.Exp := 7; rsa.Coeff := 5; rsa.R := 143 |}] |} |} in
  rsa.Validate key = None /\
  roundTrip (rsaPrivateKey key) "k"
    {| KeyMarshalOptions.AsymmetricPrivate := true;
       KeyMarshalOptions.Symmetric := false |}
    {| KeyUnmarshalOptions.AsymmetricPrivate := true;
       KeyUnmarshalOptions.Symmetric := false |}
  = Err (Errorf "failed to validate %s key: %w" errInvalidModulus).
Proof. repeat split; vm_compute; reflexivity. Qed.

End RoundTrip.

(** ** The earlier revision *)

Section LegacyFacts.

Import JWKMarshal.

Lemma legacy_marshalOTH_not_Err (crt : list rsa.CRTValue) (count i : nat) (err : error) :
  Legacy.marshalOTH crt i count <> Err err.
Proof.
  revert i. induction count as [|count IH]; intros i; cbn [Legacy.marshalOTH].
  - discriminate.
  - destruct (index crt i) eqn:E; cbn [bind];
      [| now apply index_not_Err in E | discriminate].
    specialize (IH (S i)).
    destruct (Legacy.marshalOTH crt (S i) count); cbn [bind];
      [discriminate | congruence | discriminate].
Qed.

(** The only errors of the earlier [KeyMarshal], too, are of the
    [ErrUnsupportedKeyType] kind. *)
Lemma legacy_KeyMarshal_error_kind (meta : KeyWithMeta.t) (options : KeyMarshalOptions.t)
    (err : error) :
  Legacy.KeyMarshal meta options = Err err -> errors_Is err ErrUnsupportedKeyType = true.
Proof.
  unfold Legacy.KeyMarshal.
  destruct meta as [[| key | key | key | key | key | key | key | key | key | name] kid];
    cbn [KeyWithMeta.Key KeyWithMeta.KeyID];
    repeat match goal with
      | |- context [if ?c then _ else _] => destruct c
      | |- context [ed25519.Public ?k] =>
          let E := fresh "E" in
          destruct (ed25519.Public k) eqn:E; [| now apply Public_not_Err in E |]
      | |- context [index ?s ?i] =>
          let E := fresh "E" in
          destruct (index s i) eqn:E; [| now apply index_not_Err in E |]
      | |- context [Legacy.marshalOTH ?c ?i ?n] =>
          let E := fresh "E" in
          destruct (Legacy.marshalOTH c i n) eqn:E;
            [| now apply legacy_marshalOTH_not_Err in E |]
      | _ => progress cbn [bind]
      end;
    try discriminate; intros [= <-]; reflexivity.
Qed.

(** The key-set assembly over the earlier [KeyMarshal] keeps and drops keys
    in the same way. *)
Lemma legacy_JSON_assembly (keys : list KeyWithMeta.t) :
  Forall (fun meta => Legacy.KeyMarshal meta publicOnly <> Panic) keys ->
  Legacy.JSON (Ok keys)
  = Ok {| JWKSMarshal.Keys :=
            flat_map (kept (fun meta => Legacy.KeyMarshal meta publicOnly)) keys |}.
Proof.
  intros Hkeys. apply JSONwith_ok.
  eapply Forall_impl; [|exact Hkeys].
  intros meta Hnp. unfold okOrUnsupported.
  destruct (Legacy.KeyMarshal meta publicOnly) as [jwk | err |] eqn:E.
  - exact I.
  - exact (legacy_KeyMarshal_error_kind _ _ _ E).
  - contradiction.
Qed.

(** The earlier [KeyMarshal] writes the whole 64-byte private key into [d],
    and no [alg]. *)
Lemma legacy_marshal_ed25519_private (key : bytes) (kid : string) (symmetric : bool) :
  List.length key = ed25519.PrivateKeySize ->
  Legacy.KeyMarshal (NewKey (ed25519PrivateKey key) kid)
    {| KeyMarshalOptions.AsymmetricPrivate := true;
       KeyMarshalOptions.Symmetric := symmetric |}
  = Ok {| KTY := "OKP"; CRV := "Ed25519"; ALG := EmptyString;
          X := base64.EncodeToString (skipn 32 key);
          D := base64.EncodeToString key;
          KID := kid;
          Y := EmptyString; N := EmptyString; E := EmptyString;
          P := EmptyString; Q := EmptyString; DP := EmptyString;
          DQ := EmptyString; QI := EmptyString; OTH := []; K := EmptyString |}.
Proof.
  intros Hlen. unfold Legacy.KeyMarshal. cbn [NewKey KeyWithMeta.Key KeyWithMeta.KeyID].
  rewrite (Public_64 key Hlen). reflexivity.
Qed.

(** The earlier [KeyUnmarshal] reports an [x] of the wrong length as an
    unsupported key type, and only when private material is not requested. *)
Lemma legacy_unmarshal_OKP_length
    (jwk : JWKMarshal.t) (options : KeyUnmarshalOptions.t) (public : bytes) :
  KTY jwk = "OKP" -> CRV jwk = "Ed25519" ->
  KeyUnmarshalOptions.AsymmetricPrivate options = false ->
  nonEmpty (X jwk) = true ->
  base64urlTrailingPadding (X jwk) = Ok public ->
  List.length public <> 32%nat ->
  Legacy.KeyUnmarshal jwk options
  = Err (Errorf "%w: %s key should be %d bytes" ErrUnsupportedKeyType).
Proof.
  intros Hkty Hcrv Hap HX Hx Hlen.
  unfold Legacy.KeyUnmarshal, Legacy.unmarshalOKP. rewrite Hkty, Hcrv, Hap.
  apply nonEmpty_isEmpty in HX. apply Nat.eqb_neq in Hlen.
  cbn [String.eqb Ascii.eqb Bool.eqb KeyTypeEC KeyTypeOKP CurveEd25519 negb].
  rewrite HX, Hx. cbn [wrapErr bind]. unfold ed25519.PublicKeySize.
  rewrite Hlen. reflexivity.
Qed.

End LegacyFacts.

(* ================================================================== *)
(** * Further properties *)

(** ** The field decoder and the integer encoder *)

Lemma decode_outcome (src : string) :
  forall (si : Z) (j : nat) (dbuf : list N),
    (exists b, base64.decode src si j dbuf = Ok b) \/
    (exists n, base64.decode src si j dbuf = Err (CorruptInputError n) /\
               si - Z.of_nat j <= n < si + Z.of_nat (String.length src)).
Proof.
  induction src as [|c rest IH]; intros si j dbuf; cbn [base64.decode String.length].
  - destruct j as [|[|j]]; [left; eauto | right | left; eauto].
    eexists. split; [reflexivity | lia].
  - assert (Hstep : forall j' dbuf',
               (Z.of_nat j' <= Z.of_nat j + 1) ->
               (exists b, base64.decode rest (si + 1) j' dbuf' = Ok b) \/
               (exists n, base64.decode rest (si + 1) j' dbuf' = Err (CorruptInputError n) /\
                          si - Z.of_nat j <= n
                          < si + Z.of_nat (S (String.length rest)))).
    { intros j' dbuf' Hj'.
      destruct (IH (si + 1) j' dbuf') as [Hok | (n & Hn & Hb)]; [left; exact Hok | right].
      exists n. split; [exact Hn | lia]. }
    destruct (negb (base64.decodeMap c =? 255)%N).
    + destruct j as [|[|[|j]]]; try (apply Hstep; lia).
      destruct (Hstep 0%nat []) as [[b Hb] | (n & Hn & Hb)]; [lia | |].
      * rewrite Hb. cbn [bind]. left. eauto.
      * rewrite Hn. cbn [bind]. right. exists n. split; [reflexivity | lia].
    + destruct (_ || _).
      * apply Hstep. lia.
      * right. exists (si + 1 - 1). split; [reflexivity | lia].
Qed.

Lemma TrimRight_length (s cutset : string) :
  (String.length (TrimRight s cutset) <= String.length s)%nat.
Proof.
  induction s as [|c s IH]; cbn [TrimRight String.length]; [lia|].
  destruct (TrimRight s cutset); [destruct (inCutset c cutset)|];
    cbn [String.length] in *; lia.
Qed.

(** X1.  [base64urlTrailingPadding] never panics: it returns bytes, or a
    [CorruptInputError] whose offset lies inside the field. *)
Theorem base64urlTrailingPadding_outcome (s : string) :
  (exists b, base64urlTrailingPadding s = Ok b) \/
  (exists n, base64urlTrailingPadding s = Err (CorruptInputError n) /\
             0 <= n < Z.of_nat (String.length s)).
Proof.
  unfold base64urlTrailingPadding, base64.DecodeString.
  destruct (decode_outcome (TrimRight s "=") 0 0 [])
    as [Hok | (n & Hn & Hb)]; [left; exact Hok | right].
  exists n. split; [exact Hn|].
  pose proof (TrimRight_length s "="). cbn in Hb. lia.
Qed.

(** X2.  Any number of trailing padding characters after any text, decodable
    or not, leaves the outcome of [base64urlTrailingPadding] unchanged; in
    particular a text made of padding only decodes to no bytes. *)
Theorem trailing_padding_ignored (s : string) (n : nat) :
  base64urlTrailingPadding (s ++ padding n)%string = base64urlTrailingPadding s /\
  base64urlTrailingPadding (padding n) = Ok [].
Proof.
  unfold base64urlTrailingPadding. split.
  - f_equal. apply TrimRight_app_padding.
  - now rewrite TrimRight_padding.
Qed.

Lemma TrimRight_snoc (s : string) (c : ascii) :
  notPad c = true -> TrimRight (s ++ String c EmptyString) "=" = (s ++ String c EmptyString)%string.
Proof.
  intros Hc. unfold notPad in Hc. apply negb_true_iff in Hc.
  induction s as [|a s IH]; cbn [append TrimRight].
  - now rewrite Hc.
  - rewrite IH. destruct s; reflexivity.
Qed.

Lemma decode_pad_inside (s1 rest : string) :
  forall (si : Z) (j : nat) (dbuf : list N),
  exists n, base64.decode (s1 ++ String "=" rest) si j dbuf = Err (CorruptInputError n).
Proof.
  induction s1 as [|c s1 IH]; intros si j dbuf; cbn [append base64.decode].
  - change (base64.decodeMap "=") with 255%N. cbn. eauto.
  - destruct (negb (base64.decodeMap c =? 255)%N).
    + destruct j as [|[|[|j]]]; try apply IH.
      destruct (IH (si + 1) 0%nat []) as [n ->]. cbn [bind]. eauto.
    + destruct (_ || _); [apply IH | eauto].
Qed.

(** X3.  Padding is tolerated at the end only: a padding character followed,
    anywhere later, by a character that is not padding makes
    [base64urlTrailingPadding] fail with a [CorruptInputError]. *)
Theorem interior_padding_refused (s1 s2 : string) (c : ascii) :
  notPad c = true ->
  exists n,
    base64urlTrailingPadding (s1 ++ String "=" (s2 ++ String c EmptyString))
    = Err (CorruptInputError n).
Proof.
  intros Hc. unfold base64urlTrailingPadding, base64.DecodeString.
  replace (s1 ++ String "=" (s2 ++ String c EmptyString))%string
    with ((s1 ++ String "=" s2) ++ String c EmptyString)%string.
  - rewrite (TrimRight_snoc _ c Hc).
    replace ((s1 ++ String "=" s2) ++ String c EmptyString)%string
      with (s1 ++ String "=" (s2 ++ String c EmptyString))%string.
    + apply decode_pad_inside.
    + clear. induction s1 as [|a s1 IH]; cbn [append]; [reflexivity | now rewrite IH].
  - clear. induction s1 as [|a s1 IH]; cbn [append]; [reflexivity | now rewrite IH].
Qed.

Lemma interior_padding_refused_witness :
  exists n, base64urlTrailingPadding "AA=A" = Err (CorruptInputError n).
Proof.
  exact (interior_padding_refused "AA" EmptyString "A" eq_refl).
Defined.

(** X4.  The integer encoder keeps the absolute value and nothing else:
    the encoded text decodes, the decoded bytes read back as [|x|], and two
    integers have the same text exactly when they have the same absolute
    value (the sign is not encoded). *)
Theorem bigInt_text_is_abs (x y : Z) :
  (exists b, base64urlTrailingPadding (bigIntToBase64RawURL x) = Ok b /\
             big.SetBytes b = Z.abs x) /\
  (bigIntToBase64RawURL x = bigIntToBase64RawURL y <-> Z.abs x = Z.abs y).
Proof.
  split.
  - exists (big.Bytes x). split; [apply decode_bigInt | apply SetBytes_Bytes].
  - split.
    + intros Heq.
      assert (H : base64urlTrailingPadding (bigIntToBase64RawURL x)
                  = base64urlTrailingPadding (bigIntToBase64RawURL y)) by now rewrite Heq.
      rewrite !decode_bigInt in H. injection H as H.
      rewrite <- (SetBytes_Bytes x), <- (SetBytes_Bytes y). now rewrite H.
    + intros Habs. unfold bigIntToBase64RawURL, big.Bytes.
      replace (Z.abs_N y) with (Z.abs_N x) by lia. reflexivity.
Qed.

Lemma natBytes_zero (fuel : nat) : big.natBytes fuel 0 = [].
Proof. destruct fuel; reflexivity. Qed.

Lemma natBytes_head (fuel : nat) :
  forall (n : N) (b : byte) (rest : bytes),
    (n < 2 ^ N.of_nat fuel)%N ->
    big.natBytes fuel n = b :: rest -> b <> x00.
Proof.
  induction fuel as [|fuel IH]; intros n b rest Hn; cbn [big.natBytes]; [discriminate|].
  destruct (N.eqb_spec n 0) as [->|Hnz]; [discriminate|].
  assert (Hlt : (n / 256 < 2 ^ N.of_nat fuel)%N).
  { rewrite Nat2N.inj_succ, N.pow_succ_r' in Hn.
    assert (n / 256 <= n / 2)%N by (zify; Z.to_euclidean_division_equations; lia).
    assert (n / 2 < 2 ^ N.of_nat fuel)%N by (apply N.Div0.div_lt_upper_bound; lia).
    lia. }
  destruct (big.natBytes fuel (n / 256)) as [|b' rest'] eqn:E.
  - apply natBytes_nil in E; [|exact Hlt].
    cbn [app]. intros [= <- <-] Hzero.
    pose proof (to_N_byte_of_N n) as Hb. rewrite Hzero in Hb. cbn in Hb.
    zify; Z.to_euclidean_division_equations; lia.
  - cbn [app]. intros [= <- <-]. exact (IH _ _ _ Hlt E).
Qed.

(** X5.  The integer encoder writes the minimal big-endian form: the bytes
    behind the text never start with a zero byte, and the text is empty
    exactly for zero. *)
Theorem bigInt_minimal (x : Z) :
  exists b,
    bigIntToBase64RawURL x = base64.EncodeToString b /\
    big.SetBytes b = Z.abs x /\
    hd_error b <> Some x00 /\
    (bigIntToBase64RawURL x = EmptyString <-> x = 0).
Proof.
  exists (big.Bytes x). split; [reflexivity|]. split; [apply SetBytes_Bytes|]. split.
  - unfold big.Bytes.
    destruct (big.natBytes _ _) as [|b rest] eqn:E; [discriminate|].
    cbn [hd_error]. intros [= ->].
    eapply natBytes_head; [|exact E|reflexivity].
    rewrite N2Nat.id. apply N.size_gt.
  - unfold bigIntToBase64RawURL. now rewrite EncodeToString_empty, Bytes_nil.
Qed.

(** ** KeyMarshal *)

Section MarshalFacts.

Import JWKMarshal.

(** The cases of [KeyMarshal]: one goal per key type and setting of the
    options, with the record computed. *)
Ltac marshal_cases meta options :=
  unfold KeyMarshal;
  destruct meta as [[| key | key | key | key | key | key | key | key | key | name] kid];
  destruct options as [[|] [|]];
  cbn [KeyWithMeta.Key KeyWithMeta.KeyID KeyMarshalOptions.AsymmetricPrivate
       KeyMarshalOptions.Symmetric bind];
  repeat match goal with
    | |- context [ed25519.Public ?k] => destruct (ed25519.Public k); cbn [bind]
    | |- context [index ?s ?i] => destruct (index s i); cbn [bind]
    end.

(** X6.  With [AsymmetricPrivate] clear, [KeyMarshal] never populates a
    private parameter, whatever the key: [d], [p], [q], [dp], [dq], [qi]
    are empty and [oth] has no entry. *)
Theorem marshal_withholds_private (meta : KeyWithMeta.t) (options : KeyMarshalOptions.t)
    (jwk : JWKMarshal.t) :
  KeyMarshalOptions.AsymmetricPrivate options = false ->
  KeyMarshal meta options = Ok jwk ->
  noPrivateFields jwk.
Proof.
  marshal_cases meta options; intros Hap; try discriminate Hap;
    intros H; try discriminate H; injection H as <-; repeat split.
Qed.

Lemma marshal_withholds_private_witness :
  noPrivateFields
    {| KTY := "EC"; CRV := "P-256"; X := "AQ"; Y := "Ag"; KID := "k";
       ALG := EmptyString; D := EmptyString;
       N := EmptyString; E := EmptyString; P := EmptyString; Q := EmptyString;
       DP := EmptyString; DQ := EmptyString; QI := EmptyString; OTH := [];
       K := EmptyString |}.
Proof.
  apply (marshal_withholds_private
           (NewKey (ecdsaPrivateKey
                      {| ecdsa.Pub := {| ecdsa.Curve := elliptic.P256;
                                         ecdsa.X := 1; ecdsa.Y := 2 |};
                         ecdsa.D := 3 |}) "k")
           publicOnly); reflexivity.
Defined.

(** X7.  Marshalling a private key with [AsymmetricPrivate] clear gives the
    very record of its public key: of the embedded public key for ECDSA and
    RSA, of the second half of a 64-byte Ed25519 key. *)
Theorem marshal_private_as_public (k : KeyValue) (kid : string)
    (options : KeyMarshalOptions.t) :
  KeyMarshalOptions.AsymmetricPrivate options = false ->
  (forall key, k = ed25519PrivateKey key -> List.length key = ed25519.PrivateKeySize) ->
  KeyMarshal (NewKey k kid) options = KeyMarshal (NewKey (emitted k options) kid) options.
Proof.
  intros Hap Hlen. unfold emitted. rewrite Hap.
  destruct k as [| key | key | key | key | key | key | key | key | key | name];
    try reflexivity; unfold KeyMarshal;
    cbn [NewKey KeyWithMeta.Key KeyWithMeta.KeyID]; rewrite ?Hap; try reflexivity.
  rewrite (Public_64 key (Hlen key eq_refl)). reflexivity.
Qed.

Lemma marshal_private_as_public_witness :
  let key := {| rsa.Pub := {| rsa.N := 3233; rsa.E := 17 |}; rsa.D := 413;
                rsa.Primes := [61; 53];
                rsa.Precomputed := {| rsa.Dp := 53; rsa.Dq := 49; rsa.Qinv := 38;
                                      rsa.CRTValues := [] |} |} in
  KeyMarshal (NewKey (rsaPrivateKey key) "k") publicOnly
  = KeyMarshal (NewKey (rsaPublicKey (rsa.Pub key)) "k") publicOnly.
Proof.
  intros key.
  apply (marshal_private_as_public (rsaPrivateKey key) "k" publicOnly eq_refl).
  discriminate.
Defined.


(** X9.  A record produced by [KeyMarshal] carries the key ID as [kid] and,
    as [kty], the key type of the key: EC, OKP, RSA or oct. *)
Theorem marshal_kid_kty (meta : KeyWithMeta.t) (options : KeyMarshalOptions.t)
    (jwk : JWKMarshal.t) :
  KeyMarshal meta options = Ok jwk ->
  KID jwk = KeyWithMeta.KeyID meta /\
  keyType (KeyWithMeta.Key meta) = Some (KTY jwk).
Proof.
  marshal_cases meta options; intros H; try discriminate H; injection H as <-;
    split; reflexivity.
Qed.

Lemma marshal_kid_kty_witness :
  let jwk := set_KID "hmac" (set_K "AQ" (set_KTY "oct" zero)) in
  KID jwk = "hmac" /\ keyType (byteSlice [x01]) = Some (KTY jwk).
Proof.
  intros jwk.
  exact (marshal_kid_kty (NewKey (byteSlice [x01]) "hmac")
           {| KeyMarshalOptions.AsymmetricPrivate := false;
              KeyMarshalOptions.Symmetric := true |} jwk eq_refl).
Defined.

Lemma unpadded_EncodeToString (b : bytes) : unpadded (base64.EncodeToString b).
Proof. apply EncodeToString_notPad. Qed.

Lemma unpadded_bigInt (x : Z) : unpadded (bigIntToBase64RawURL x).
Proof. apply EncodeToString_notPad. Qed.

(** X10.  Every base64url parameter of a record produced by [KeyMarshal],
    the entries of [oth] included, is free of padding characters. *)
Theorem marshal_fields_unpadded (meta : KeyWithMeta.t) (options : KeyMarshalOptions.t)
    (jwk : JWKMarshal.t) :
  KeyMarshal meta options = Ok jwk -> fieldsUnpadded jwk.
Proof.
  marshal_cases meta options; intros H; try discriminate H; injection H as <-;
    unfold fieldsUnpadded;
    cbn [ALG CRV D DP DQ E K KID KTY N OTH P Q QI X Y
         set_ALG set_CRV set_D set_DP set_DQ set_E set_K set_KID set_KTY set_N
         set_OTH set_P set_Q set_QI set_X set_Y zero];
    repeat split;
    try apply unpadded_EncodeToString; try apply unpadded_bigInt;
    try reflexivity; try constructor.
  all: apply Forall_forall; intros o [v [<- _]]%in_map_iff;
    repeat split; apply unpadded_bigInt.
Qed.

Lemma marshal_fields_unpadded_witness :
  fieldsUnpadded (set_KID "hmac" (set_K "AQ" (set_KTY "oct" zero))).
Proof.
  exact (marshal_fields_unpadded (NewKey (byteSlice [x01]) "hmac")
           {| KeyMarshalOptions.AsymmetricPrivate := false;
              KeyMarshalOptions.Symmetric := true |} _ eq_refl).
Defined.

End MarshalFacts.

(** ** KeyUnmarshal *)

Section UnmarshalFacts.

Import JWKMarshal.

Lemma base64urlTrailingPadding_cases (s : string) :
  (exists b, base64urlTrailingPadding s = Ok b) \/
  (exists n, base64urlTrailingPadding s = Err (CorruptInputError n)).
Proof.
  unfold base64urlTrailingPadding, base64.DecodeString.
  destruct (decode_outcome (TrimRight s "=") 0 0 []) as [Hok | (n & Hn & _)];
    [left; exact Hok | right; eauto].
Qed.

Lemma unmarshalOTH_outcome (oth : list OtherPrimes.t) :
  (exists more, unmarshalOTH oth = Ok more) \/
  (exists err, unmarshalOTH oth = Err err /\ unmarshalError err).
Proof.
  induction oth as [|o rest IH]; cbn [unmarshalOTH]; [left; eauto|].
  destruct (_ || _).
  { right. eexists. split; [reflexivity|]. now apply parameterError. }
  repeat match goal with
    | |- context [wrapErr _ (base64urlTrailingPadding ?s)] =>
        destruct (base64urlTrailingPadding_cases s) as [[? ->] | [? ->]];
        cbn [wrapErr bind];
        [| right; eexists; split; [reflexivity | apply decodingError]]
    end.
  destruct IH as [[more ->] | (err & -> & Herr)]; cbn [bind].
  - left. eauto.
  - right. eauto.
Qed.

Ltac outcome_step :=
  match goal with
  | |- context [wrapErr _ (base64urlTrailingPadding ?s)] =>
      destruct (base64urlTrailingPadding_cases s) as [[? ->] | [? ->]];
      cbn [wrapErr bind];
      [| right; eexists; split; [reflexivity | apply decodingError]]
  | |- context [unmarshalOTH ?o] =>
      let err := fresh "err" in let H := fresh "H" in
      destruct (unmarshalOTH_outcome o) as [[? ->] | (err & -> & H)];
      cbn [bind]; [| right; eexists; split; [reflexivity | exact H]]
  | |- context [match rsa.Validate ?p with _ => _ end] =>
      let E := fresh "E" in
      destruct (rsa.Validate p) eqn:E;
      [right; eexists; split; [reflexivity | exact (validationError _ _ E)] |]
  | |- context [if ?c then _ else _] => destruct c
  | |- (exists meta, withKeyID _ (Ok _) = Ok meta) \/ _ => left; eexists; reflexivity
  | |- _ \/ (exists err, withKeyID _ (Err _) = Err err /\ _) =>
      right; eexists; split; [reflexivity |];
      first [apply parameterError; reflexivity | apply unsupportedError; reflexivity]
  end.

Lemma KeyUnmarshal_withKeyID (jwk : JWKMarshal.t) (options : KeyUnmarshalOptions.t) :
  KeyUnmarshal jwk options
  = withKeyID jwk
      (if String.eqb (KTY jwk) KeyTypeEC then unmarshalEC jwk options
       else if String.eqb (KTY jwk) KeyTypeOKP then unmarshalOKP jwk options
       else if String.eqb (KTY jwk) KeyTypeRSA then unmarshalRSA jwk options
       else if String.eqb (KTY jwk) KeyTypeOct then unmarshalOct jwk options
       else Err (Errorf "%w: %s" ErrUnsupportedKeyType)).
Proof. reflexivity. Qed.

(** X11.  [KeyUnmarshal] never panics, and its errors are of four kinds
    only: one that wraps [ErrKeyUnmarshalParameter], one that wraps
    [ErrUnsupportedKeyType], a wrapped base64 [CorruptInputError], or a
    wrapped error of the RSA consistency check. *)
Theorem unmarshal_outcome (jwk : JWKMarshal.t) (options : KeyUnmarshalOptions.t) :
  (exists meta, KeyUnmarshal jwk options = Ok meta) \/
  (exists err, KeyUnmarshal jwk options = Err err /\ unmarshalError err).
Proof.
  rewrite KeyUnmarshal_withKeyID.
  unfold unmarshalEC, unmarshalOKP, unmarshalRSA, unmarshalOct, curveOfCRV.
  repeat (outcome_step; cbn [bind wrapErr]).
Qed.

(** X12.  A record whose [kty] is none of EC, OKP, RSA, oct is refused with
    an error of the [ErrUnsupportedKeyType] kind, whatever else it holds and
    whatever the options. *)
Theorem unmarshal_unknown_kty (jwk : JWKMarshal.t) (options : KeyUnmarshalOptions.t) :
  KTY jwk <> "EC" -> KTY jwk <> "OKP" -> KTY jwk <> "RSA" -> KTY jwk <> "oct" ->
  exists err,
    KeyUnmarshal jwk options = Err err /\
    errors_Is err ErrUnsupportedKeyType = true /\
    errors_Is err ErrKeyUnmarshalParameter = false.
Proof.
  intros H1%String.eqb_neq H2%String.eqb_neq H3%String.eqb_neq H4%String.eqb_neq.
  unfold KeyUnmarshal, KeyTypeEC, KeyTypeOKP, KeyTypeRSA, KeyTypeOct.
  rewrite H1, H2, H3, H4. eexists. repeat split.
Qed.

Lemma unmarshal_unknown_kty_witness :
  exists err,
    KeyUnmarshal (set_KTY "ec" zero)
      {| KeyUnmarshalOptions.AsymmetricPrivate := true;
         KeyUnmarshalOptions.Symmetric := true |} = Err err /\
    errors_Is err ErrUnsupportedKeyType = true /\
    errors_Is err ErrKeyUnmarshalParameter = false.
Proof.
  apply (unmarshal_unknown_kty (set_KTY "ec" zero)); discriminate.
Defined.

(** X13.  An [EC] record is refused with an error of the
    [ErrKeyUnmarshalParameter] kind when [crv], [x] or [y] is absent, and
    when [x] and [y] decode but [crv] is none of [P-256], [P-384],
    [P-521]. *)
Theorem unmarshal_EC_rejects (jwk : JWKMarshal.t) (options : KeyUnmarshalOptions.t) :
  KTY jwk = "EC" ->
  (CRV jwk = EmptyString \/ X jwk = EmptyString \/ Y jwk = EmptyString) \/
  ((exists x, base64urlTrailingPadding (X jwk) = Ok x) /\
   (exists y, base64urlTrailingPadding (Y jwk) = Ok y) /\
   CRV jwk <> "P-256" /\ CRV jwk <> "P-384" /\ CRV jwk <> "P-521") ->
  exists err,
    KeyUnmarshal jwk options = Err err /\
    errors_Is err ErrKeyUnmarshalParameter = true.
Proof.
  intros Hkty Hcases. rewrite KeyUnmarshal_EC by exact Hkty. unfold unmarshalEC.
  destruct (isEmpty (CRV jwk) || isEmpty (X jwk) || isEmpty (Y jwk)) eqn:Hempty.
  { eexists. split; reflexivity. }
  destruct Hcases as [Habsent | ([x Hx] & [y Hy] & H1 & H2 & H3)].
  - exfalso. unfold isEmpty in Hempty.
    destruct Habsent as [H | [H | H]]; rewrite H in Hempty; cbn in Hempty;
      rewrite ?orb_true_r in Hempty; discriminate.
  - rewrite Hx, Hy. cbn [wrapErr bind]. unfold curveOfCRV, CurveP256, CurveP384, CurveP521.
    apply String.eqb_neq in H1, H2, H3. rewrite H1, H2, H3.
    eexists. split; reflexivity.
Qed.

Lemma unmarshal_EC_rejects_witness :
  exists err,
    KeyUnmarshal (set_Y "AQ" (set_X "AQ" (set_CRV "P-224" (set_KTY "EC" zero))))
      {| KeyUnmarshalOptions.AsymmetricPrivate := false;
         KeyUnmarshalOptions.Symmetric := false |} = Err err /\
    errors_Is err ErrKeyUnmarshalParameter = true.
Proof.
  apply (unmarshal_EC_rejects
           (set_Y "AQ" (set_X "AQ" (set_CRV "P-224" (set_KTY "EC" zero))))).
  - reflexivity.
  - right. split; [now exists [x01]|]. split; [now exists [x01]|].
    repeat split; discriminate.
Defined.

(** X14.  With [AsymmetricPrivate] clear, [KeyUnmarshal] does not look at
    the private parameters: two records that agree on all the others have
    the same outcome, even where [d], [p], [q], [dp], [dq], [qi] or [oth]
    would not decode. *)
Theorem unmarshal_ignores_private (jwk jwk' : JWKMarshal.t)
    (options : KeyUnmarshalOptions.t) :
  KeyUnmarshalOptions.AsymmetricPrivate options = false ->
  samePublicFields jwk jwk' ->
  KeyUnmarshal jwk options = KeyUnmarshal jwk' options.
Proof.
  intros Hap (Hkty & Hcrv & Hx & Hy & Hn & He & Hk & Hkid).
  unfold KeyUnmarshal, unmarshalEC, unmarshalOKP, unmarshalRSA, unmarshalOct.
  rewrite Hap, Hkty, Hcrv, Hx, Hy, Hn, He, Hk, Hkid. reflexivity.
Qed.

Lemma unmarshal_ignores_private_witness :
  KeyUnmarshal (set_D "!!" (set_E "AQAB" (set_N "DKE" (set_KTY "RSA" zero))))
    {| KeyUnmarshalOptions.AsymmetricPrivate := false;
       KeyUnmarshalOptions.Symmetric := false |}
  = KeyUnmarshal (set_E "AQAB" (set_N "DKE" (set_KTY "RSA" zero)))
      {| KeyUnmarshalOptions.AsymmetricPrivate := false;
         KeyUnmarshalOptions.Symmetric := false |}.
Proof.
  apply unmarshal_ignores_private; [reflexivity | repeat split].
Defined.

(** X15.  For an [OKP] record on [Ed25519] whose [x] decodes to 32 bytes and
    whose [d] is present and decodes, [KeyUnmarshal] with
    [AsymmetricPrivate] set returns the private key made of the decoded [d]
    followed by the decoded [x] when [d] has 32 bytes, and an error of the
    [ErrKeyUnmarshalParameter] kind otherwise.  The public half is taken
    from the record, not derived from the seed. *)
Theorem unmarshal_OKP_private (jwk : JWKMarshal.t) (options : KeyUnmarshalOptions.t)
    (seed public : bytes) :
  KTY jwk = "OKP" -> CRV jwk = "Ed25519" ->
  KeyUnmarshalOptions.AsymmetricPrivate options = true ->
  nonEmpty (X jwk) = true -> base64urlTrailingPadding (X jwk) = Ok public ->
  List.length public = 32%nat ->
  nonEmpty (D jwk) = true -> base64urlTrailingPadding (D jwk) = Ok seed ->
  (List.length seed = 32%nat ->
   KeyUnmarshal jwk options
   = Ok {| KeyWithMeta.Key := ed25519PrivateKey (seed ++ public);
           KeyWithMeta.KeyID := KID jwk |}) /\
  (List.length seed <> 32%nat ->
   exists err, KeyUnmarshal jwk options = Err err /\
               errors_Is err ErrKeyUnmarshalParameter = true).
Proof.
  intros Hkty Hcrv Hap HX Hx Hlen HD Hd.
  rewrite KeyUnmarshal_OKP by exact Hkty. unfold unmarshalOKP.
  apply nonEmpty_isEmpty in HX.
  rewrite Hcrv, HX, Hx, Hap, HD, Hd.
  cbn [CurveEd25519 String.eqb Ascii.eqb Bool.eqb negb wrapErr bind andb].
  unfold ed25519.PublicKeySize, ed25519.PrivateKeySize.
  rewrite Hlen, length_app, Hlen. cbn [Nat.eqb negb].
  split; intros Hseed.
  - rewrite Hseed. reflexivity.
  - replace (List.length seed + 32 =? 64)%nat with false
      by (symmetry; apply Nat.eqb_neq; lia).
    eexists. split; reflexivity.
Qed.

Lemma unmarshal_OKP_private_witness :
  let jwk := set_D "AAAAAAAAAAAAAAAAAAAAAAAAAAAAAAAAAAAAAAAAAAA"
               (set_X "AQEBAQEBAQEBAQEBAQEBAQEBAQEBAQEBAQEBAQEBAQE"
                  (set_CRV "Ed25519" (set_KTY "OKP" zero))) in
  KeyUnmarshal jwk {| KeyUnmarshalOptions.AsymmetricPrivate := true;
                      KeyUnmarshalOptions.Symmetric := false |}
  = Ok {| KeyWithMeta.Key := ed25519PrivateKey (repeat x00 32 ++ repeat x01 32);
          KeyWithMeta.KeyID := EmptyString |}.
Proof.
  intros jwk.
  apply (unmarshal_OKP_private jwk
           {| KeyUnmarshalOptions.AsymmetricPrivate := true;
              KeyUnmarshalOptions.Symmetric := false |}
           (repeat x00 32) (repeat x01 32)); reflexivity.
Defined.

End UnmarshalFacts.

Section UnmarshalMore.

Import JWKMarshal.

Lemma int_range (u : Z) : 0 <= u < 2 ^ 64 -> - 2 ^ 63 <= int u < 2 ^ 63 /\ (int u - u) mod 2 ^ 64 = 0.
Proof.
  intros Hu. unfold int. destruct (Z.ltb_spec u (2 ^ 63)).
  - split; [lia|]. now rewrite Z.sub_diag.
  - split; [lia|]. replace (u - 2 ^ 64 - u) with (-1 * 2 ^ 64) by lia.
    apply Z.mod_mul. lia.
Qed.

(** X16.  For an [RSA] record whose [n] and [e] are present and decode,
    [KeyUnmarshal] with [AsymmetricPrivate] clear always succeeds: the
    modulus is the value of [n], and the exponent is the value of [e]
    reduced to its low 64 bits and read as a signed integer, so it is the
    value of [e] below [2^63] and wraps silently above.  Neither is
    checked. *)
Theorem unmarshal_RSA_public_unchecked (jwk : JWKMarshal.t)
    (options : KeyUnmarshalOptions.t) (n e : bytes) :
  KTY jwk = "RSA" ->
  KeyUnmarshalOptions.AsymmetricPrivate options = false ->
  nonEmpty (N jwk) = true -> base64urlTrailingPadding (N jwk) = Ok n ->
  nonEmpty (E jwk) = true -> base64urlTrailingPadding (E jwk) = Ok e ->
  exists exponent,
    KeyUnmarshal jwk options
    = Ok {| KeyWithMeta.Key :=
              rsaPublicKey {| rsa.N := big.SetBytes n; rsa.E := exponent |};
            KeyWithMeta.KeyID := KID jwk |} /\
    - 2 ^ 63 <= exponent < 2 ^ 63 /\
    (exponent - big.SetBytes e) mod 2 ^ 64 = 0 /\
    (big.SetBytes e < 2 ^ 63 -> exponent = big.SetBytes e).
Proof.
  intros Hkty Hap HN Hn HE He.
  exists (int (big.Uint64 (big.SetBytes e))). split; [|split; [|split]].
  - rewrite KeyUnmarshal_RSA by exact Hkty. unfold unmarshalRSA.
    apply nonEmpty_isEmpty in HN, HE. rewrite HN, HE, Hn, He, Hap. reflexivity.
  - apply int_range. unfold big.Uint64. apply Z.mod_pos_bound. lia.
  - pose proof (SetBytes_nonneg e) as Hpos.
    unfold big.Uint64. rewrite Z.abs_eq by exact Hpos.
    destruct (int_range (big.SetBytes e mod 2 ^ 64)) as [_ Hmod];
      [apply Z.mod_pos_bound; lia|].
    rewrite <- Hmod. rewrite <- (Zminus_mod_idemp_r _ (big.SetBytes e)).
    reflexivity.
  - intros Hsmall. apply int_Uint64. pose proof (SetBytes_nonneg e). lia.
Qed.

(** The exponent [2^64 + 3] is read as 3. *)
Lemma unmarshal_RSA_public_unchecked_witness :
  exists exponent,
    KeyUnmarshal (set_E "AQAAAAAAAAAD" (set_N "DKE" (set_KTY "RSA" zero)))
      {| KeyUnmarshalOptions.AsymmetricPrivate := false;
         KeyUnmarshalOptions.Symmetric := false |}
    = Ok {| KeyWithMeta.Key := rsaPublicKey {| rsa.N := 3233; rsa.E := exponent |};
            KeyWithMeta.KeyID := EmptyString |} /\
    - 2 ^ 63 <= exponent < 2 ^ 63 /\
    (exponent - (2 ^ 64 + 3)) mod 2 ^ 64 = 0 /\
    (2 ^ 64 + 3 < 2 ^ 63 -> exponent = 2 ^ 64 + 3).
Proof.
  exact (unmarshal_RSA_public_unchecked
           (set_E "AQAAAAAAAAAD" (set_N "DKE" (set_KTY "RSA" zero)))
           {| KeyUnmarshalOptions.AsymmetricPrivate := false;
              KeyUnmarshalOptions.Symmetric := false |}
           [x0c; xa1] [x01; x00; x00; x00; x00; x00; x00; x00; x03]
           eq_refl eq_refl eq_refl eq_refl eq_refl eq_refl).
Defined.

Lemma completeOTH_false (o : OtherPrimes.t) :
  completeOTH o = false ->
  isEmpty (OtherPrimes.R o) || isEmpty (OtherPrimes.D o) || isEmpty (OtherPrimes.T o) = true.
Proof.
  unfold completeOTH, nonEmpty, isEmpty.
  destruct (String.eqb (OtherPrimes.R o) _), (String.eqb (OtherPrimes.D o) _),
    (String.eqb (OtherPrimes.T o) _); cbn; congruence.
Qed.

Lemma unmarshalOTH_incomplete (oth : list OtherPrimes.t) :
  Forall (fun o => completeOTH o = false \/ decodableOTH o) oth ->
  Exists (fun o => completeOTH o = false) oth ->
  unmarshalOTH oth
  = Err (Errorf "%w: %s requires parameters 'r', 'd', and 't' for each 'oth'"
           ErrKeyUnmarshalParameter).
Proof.
  induction oth as [|o rest IH]; intros Hall Hex; [inversion Hex|].
  cbn [unmarshalOTH]. inversion Hall as [|? ? Ho Hrest]; subst.
  destruct (isEmpty (OtherPrimes.R o) || isEmpty (OtherPrimes.D o)
            || isEmpty (OtherPrimes.T o)) eqn:Hempty; [reflexivity|].
  destruct Ho as [Hinc | ([d Hd] & [t Ht] & [r Hr])].
  - apply completeOTH_false in Hinc. congruence.
  - rewrite Hd, Ht, Hr. cbn [wrapErr bind].
    rewrite IH; [reflexivity | exact Hrest |].
    inversion Hex as [? ? Hinc | ]; subst; [|assumption].
    apply completeOTH_false in Hinc. congruence.
Qed.

(** X17.  For an [RSA] record read with [AsymmetricPrivate] set whose [n],
    [e] and six private parameters are present and decode: if some entry
    of [oth] lacks its [r], [d] or [t], and the entries that have all three
    decode, [KeyUnmarshal] returns an error of the
    [ErrKeyUnmarshalParameter] kind. *)
Theorem unmarshal_RSA_oth_incomplete (jwk : JWKMarshal.t)
    (options : KeyUnmarshalOptions.t) (n e d p q dp dq qi : bytes) :
  KTY jwk = "RSA" ->
  KeyUnmarshalOptions.AsymmetricPrivate options = true ->
  nonEmpty (N jwk) = true -> base64urlTrailingPadding (N jwk) = Ok n ->
  nonEmpty (E jwk) = true -> base64urlTrailingPadding (E jwk) = Ok e ->
  nonEmpty (D jwk) = true -> base64urlTrailingPadding (D jwk) = Ok d ->
  nonEmpty (P jwk) = true -> base64urlTrailingPadding (P jwk) = Ok p ->
  nonEmpty (Q jwk) = true -> base64urlTrailingPadding (Q jwk) = Ok q ->
  nonEmpty (DP jwk) = true -> base64urlTrailingPadding (DP jwk) = Ok dp ->
  nonEmpty (DQ jwk) = true -> base64urlTrailingPadding (DQ jwk) = Ok dq ->
  nonEmpty (QI jwk) = true -> base64urlTrailingPadding (QI jwk) = Ok qi ->
  Forall (fun o => completeOTH o = false \/ decodableOTH o) (OTH jwk) ->
  Exists (fun o => completeOTH o = false) (OTH jwk) ->
  exists err,
    KeyUnmarshal jwk options = Err err /\
    errors_Is err ErrKeyUnmarshalParameter = true.
Proof.
  intros Hkty Hap HN Hn HE He HD Hd HP Hp HQ Hq HDP Hdp HDQ Hdq HQI Hqi Hall Hex.
  rewrite KeyUnmarshal_RSA by exact Hkty. unfold unmarshalRSA.
  apply nonEmpty_isEmpty in HN, HE.
  rewrite HN, HE, Hn, He, Hap, HD, HP, HQ, HDP, HDQ, HQI. cbn [orb wrapErr bind andb].
  rewrite Hd, Hp, Hq, Hdp, Hdq, Hqi. cbn [wrapErr bind].
  rewrite (unmarshalOTH_incomplete _ Hall Hex).
  eexists. split; reflexivity.
Qed.

(** The record of the key [n = 61 * 53] with an [oth] entry that has no
    [t]. *)
Lemma unmarshal_RSA_oth_incomplete_witness :
  exists err,
    KeyUnmarshal
      (set_OTH [{| OtherPrimes.D := "AQ"; OtherPrimes.R := "AQ";
                   OtherPrimes.T := EmptyString |}]
         (set_QI "Jg" (set_DQ "MQ" (set_DP "NQ" (set_Q "NQ" (set_P "PQ"
            (set_D "AZ0" (set_E "EQ" (set_N "DKE" (set_KTY "RSA" zero))))))))))
      {| KeyUnmarshalOptions.AsymmetricPrivate := true;
         KeyUnmarshalOptions.Symmetric := false |} = Err err /\
    errors_Is err ErrKeyUnmarshalParameter = true.
Proof.
  apply (unmarshal_RSA_oth_incomplete _ _
           [x0c; xa1] [x11] [x01; x9d] [x3d] [x35] [x35] [x31] [x26]);
    try reflexivity.
  - repeat constructor.
  - constructor. reflexivity.
Defined.

(** The successful outcomes of [KeyUnmarshal], case by case. *)
Ltac success_step :=
  match goal with
  | |- context [wrapErr _ (base64urlTrailingPadding ?s)] =>
      destruct (base64urlTrailingPadding s); cbn [wrapErr bind]; try discriminate
  | |- context [unmarshalOTH ?o] =>
      destruct (unmarshalOTH o); cbn [bind]; try discriminate
  | |- context [match rsa.Validate ?p with _ => _ end] =>
      destruct (rsa.Validate p); try discriminate
  | |- context [if ?c then _ else _] =>
      let E := fresh "E" in destruct c eqn:E; try discriminate
  end.

(** X18.  A key produced by [KeyUnmarshal] carries the record's [kid] as
    key ID and is of the type its [kty] names; the one exception is the nil
    key returned for an [RSA] record when [AsymmetricPrivate] is set. *)
Theorem unmarshal_kid_kty (jwk : JWKMarshal.t) (options : KeyUnmarshalOptions.t)
    (meta : KeyWithMeta.t) :
  KeyUnmarshal jwk options = Ok meta ->
  KeyWithMeta.KeyID meta = KID jwk /\
  (keyType (KeyWithMeta.Key meta) = Some (KTY jwk) \/
   (KeyWithMeta.Key meta = nilKey /\ KTY jwk = "RSA" /\
    KeyUnmarshalOptions.AsymmetricPrivate options = true)).
Proof.
  unfold KeyUnmarshal.
  destruct (String.eqb_spec (KTY jwk) KeyTypeEC) as [Hkty | _];
    [|destruct (String.eqb_spec (KTY jwk) KeyTypeOKP) as [Hkty | _];
      [|destruct (String.eqb_spec (KTY jwk) KeyTypeRSA) as [Hkty | _];
        [|destruct (String.eqb_spec (KTY jwk) KeyTypeOct) as [Hkty | _];
          [|discriminate]]]];
    unfold unmarshalEC, unmarshalOKP, unmarshalRSA, unmarshalOct, curveOfCRV;
    repeat success_step; cbn [bind];
    intros [= <-]; cbn [KeyWithMeta.Key KeyWithMeta.KeyID keyType];
    (split; [reflexivity|]);
    try (left; congruence).
  all: right; split; [reflexivity|]; split; [exact Hkty|];
    now destruct (KeyUnmarshalOptions.AsymmetricPrivate options).
Qed.

Lemma unmarshal_kid_kty_witness :
  let meta := {| KeyWithMeta.Key := byteSlice [x01]; KeyWithMeta.KeyID := "hmac" |} in
  let jwk := set_KID "hmac" (set_K "AQ" (set_KTY "oct" zero)) in
  KeyWithMeta.KeyID meta = KID jwk /\
  (keyType (KeyWithMeta.Key meta) = Some (KTY jwk) \/
   (KeyWithMeta.Key meta = nilKey /\ KTY jwk = "RSA" /\ true = true)).
Proof.
  intros meta jwk.
  exact (unmarshal_kid_kty jwk
           {| KeyUnmarshalOptions.AsymmetricPrivate := true;
              KeyUnmarshalOptions.Symmetric := true |} meta eq_refl).
Defined.

(** X19.  Outside RSA, asking for private material that the record does not
    carry changes nothing: for a record without [d] whose [kty] is not
    [RSA], the outcome of [KeyUnmarshal] is the same with
    [AsymmetricPrivate] set and clear. *)
Theorem unmarshal_without_d (jwk : JWKMarshal.t) (symmetric : bool) :
  KTY jwk <> "RSA" -> D jwk = EmptyString ->
  KeyUnmarshal jwk {| KeyUnmarshalOptions.AsymmetricPrivate := true;
                      KeyUnmarshalOptions.Symmetric := symmetric |}
  = KeyUnmarshal jwk {| KeyUnmarshalOptions.AsymmetricPrivate := false;
                        KeyUnmarshalOptions.Symmetric := symmetric |}.
Proof.
  intros Hkty%String.eqb_neq Hd.
  unfold KeyUnmarshal, unmarshalEC, unmarshalOKP, unmarshalOct, KeyTypeRSA.
  rewrite Hkty, Hd.
  cbn [KeyUnmarshalOptions.AsymmetricPrivate KeyUnmarshalOptions.Symmetric andb].
  reflexivity.
Qed.

Lemma unmarshal_without_d_witness :
  let jwk := set_Y "AQ" (set_X "AQ" (set_CRV "P-256" (set_KTY "EC" zero))) in
  KeyUnmarshal jwk {| KeyUnmarshalOptions.AsymmetricPrivate := true;
                      KeyUnmarshalOptions.Symmetric := false |}
  = KeyUnmarshal jwk {| KeyUnmarshalOptions.AsymmetricPrivate := false;
                        KeyUnmarshalOptions.Symmetric := false |}.
Proof.
  intros jwk. apply (unmarshal_without_d jwk false); [discriminate | reflexivity].
Defined.

End UnmarshalMore.

(** ** RSA keys with more than two primes *)

Section MultiPrime.

Import JWKMarshal.

Lemma unmarshalOTH_marshalCRTValue (crt : list rsa.CRTValue) :
  Forall positiveCRT crt ->
  unmarshalOTH (map marshalCRTValue crt) = Ok (map rsa.R crt, crt).
Proof.
  induction 1 as [|v rest (Hexp & Hcoeff & Hr) _ IH]; [reflexivity|].
  cbn [map unmarshalOTH marshalCRTValue OtherPrimes.D OtherPrimes.T OtherPrimes.R].
  rewrite !bigIntToBase64RawURL_nonEmpty by lia. cbn [orb].
  rewrite !decode_bigInt. cbn [wrapErr bind]. rewrite IH. cbn [bind fst snd].
  rewrite !SetBytes_Bytes_nonneg by lia. now destruct v.
Qed.

(** X20.  An RSA private key marshalled with its private material and read
    back with [AsymmetricPrivate] set comes back with, as primes after the
    second, the [R] of its CRT values, and is then validated: the round trip
    returns that key when it passes the consistency check and the
    validation error otherwise.  So a valid three-prime key whose CRT value
    holds an [R] other than the third prime (as when [R] is the product of
    the first two) does not survive the round trip. *)
Theorem roundTrip_RSA_multiprime (key : rsa.PrivateKey) (p q : Z) (extra : list Z)
    (kid : string) (opts : KeyMarshalOptions.t) (opts' : KeyUnmarshalOptions.t) :
  rsa.Primes key = p :: q :: extra ->
  KeyMarshalOptions.AsymmetricPrivate opts = true ->
  KeyUnmarshalOptions.AsymmetricPrivate opts' = true ->
  0 < rsa.N (rsa.Pub key) -> 0 < rsa.E (rsa.Pub key) < 2 ^ 63 -> 0 < rsa.D key ->
  0 < p -> 0 < q ->
  0 < rsa.Dp (rsa.Precomputed key) -> 0 < rsa.Dq (rsa.Precomputed key) ->
  0 < rsa.Qinv (rsa.Precomputed key) ->
  Forall positiveCRT (rsa.CRTValues (rsa.Precomputed key)) ->
  roundTrip (rsaPrivateKey key) kid opts opts'
  = match rsa.Validate (rereadRSA key p q) with
    | Some verr => Err (Errorf "failed to validate %s key: %w" verr)
    | None => Ok (NewKey (rsaPrivateKey (rereadRSA key p q)) kid)
    end /\
  (forall r v,
      extra = [r] -> rsa.CRTValues (rsa.Precomputed key) = [v] ->
      rsa.Validate key = None -> rsa.R v <> r ->
      exists verr,
        roundTrip (rsaPrivateKey key) kid opts opts'
        = Err (Errorf "failed to validate %s key: %w" verr)).
Proof.
  intros Hprimes Hopts Hopts' Hn He Hd Hp Hq Hdp Hdq Hqi Hcrt.
  assert (Hrt : roundTrip (rsaPrivateKey key) kid opts opts'
                = match rsa.Validate (rereadRSA key p q) with
                  | Some verr => Err (Errorf "failed to validate %s key: %w" verr)
                  | None => Ok (NewKey (rsaPrivateKey (rereadRSA key p q)) kid)
                  end).
  { unfold rereadRSA.
    destruct key as [[n e] d primes [dp dq qinv crt]].
    cbn [rsa.Pub rsa.N rsa.E rsa.D rsa.Primes rsa.Precomputed
         rsa.Dp rsa.Dq rsa.Qinv rsa.CRTValues] in *.
    subst primes. unfold roundTrip, KeyMarshal.
    cbn [NewKey KeyWithMeta.Key KeyWithMeta.KeyID rsa.Pub rsa.N rsa.E rsa.D
         rsa.Primes rsa.Precomputed rsa.Dp rsa.Dq rsa.Qinv rsa.CRTValues].
    rewrite Hopts. cbn [index nth_error bind].
    rewrite KeyUnmarshal_RSA by reflexivity. unfold unmarshalRSA.
    cbn [ALG CRV D DP DQ E K KID KTY N OTH P Q QI X Y
         set_ALG set_CRV set_D set_DP set_DQ set_E set_K set_KID set_KTY set_N
         set_OTH set_P set_Q set_QI set_X set_Y zero].
    rewrite ?bigIntToBase64RawURL_nonEmpty, ?bigInt_present by lia.
    rewrite ?decode_bigInt. cbn [wrapErr bind orb andb negb].
    rewrite Hopts'. cbn [andb].
    rewrite ?bigInt_present by lia. rewrite ?decode_bigInt. cbn [wrapErr bind].
    rewrite (unmarshalOTH_marshalCRTValue _ Hcrt). cbn [bind].
    unfold rsaPrivateKeyOf. cbn [fst snd].
    rewrite !SetBytes_Bytes_nonneg, int_Uint64 by lia.
    destruct (rsa.Validate _); reflexivity. }
  split; [exact Hrt|].
  intros r v -> Hv Hvalid Hne. rewrite Hrt.
  destruct (rsa.Validate (rereadRSA key p q)) as [verr|] eqn:Hre; [eauto|].
  exfalso. apply Hne.
  apply Validate_None_iff in Hvalid as (_ & _ & Hmod & _).
  apply Validate_None_iff in Hre as (_ & _ & Hmod' & _).
  unfold rereadRSA in Hmod'. cbn [rsa.Primes rsa.Pub] in Hmod'.
  rewrite Hprimes in Hmod. rewrite Hv in Hmod'. cbn [fold_left map] in Hmod, Hmod'.
  apply (Z.mul_reg_l _ _ (1 * p * q)); [nia | congruence].
Qed.

(** The three-prime key [n = 11 * 13 * 17], [e = 7], [d = 103], with the CRT
    value precomputed for the third prime: its [R] is [11 * 13]. *)
Lemma roundTrip_RSA_multiprime_witness :
  let key :=
    {| rsa.Pub := {| rsa.N := 2431; rsa.E := 7 |};
       rsa.D := 103;
       rsa.Primes := [11; 13; 17];
       rsa.Precomputed :=
         {| rsa.Dp := 3; rsa.Dq := 7; rsa.Qinv := 6;
            rsa.CRTValues := [{| rsa.Exp := 7; rsa.Coeff := 5; rsa.R := 143 |}] |} |} in
  exists verr,
    roundTrip (rsaPrivateKey key) "k"
      {| KeyMarshalOptions.AsymmetricPrivate := true;
         KeyMarshalOptions.Symmetric := false |}
      {| KeyUnmarshalOptions.AsymmetricPrivate := true;
         KeyUnmarshalOptions.Symmetric := false |}
    = Err (Errorf "failed to validate %s key: %w" verr).
Proof.
  intros key.
  refine (proj2 (roundTrip_RSA_multiprime key 11 13 [17] "k"
                   {| KeyMarshalOptions.AsymmetricPrivate := true;
                      KeyMarshalOptions.Symmetric := false |}
                   {| KeyUnmarshalOptions.AsymmetricPrivate := true;
                      KeyUnmarshalOptions.Symmetric := false |}
                   eq_refl eq_refl eq_refl _ _ _ _ _ _ _ _ _)
            17 {| rsa.Exp := 7; rsa.Coeff := 5; rsa.R := 143 |}
            eq_refl eq_refl eq_refl _); cbn; try lia.
  - repeat constructor.
Defined.

End MultiPrime.

(** ** The published key set *)

Section Published.

Import JWKMarshal.

Lemma marshalKeys_Forall (marshal : KeyWithMeta.t -> result JWKMarshal.t)
    (P : JWKMarshal.t -> Prop) :
  (forall meta jwk, marshal meta = Ok jwk -> P jwk) ->
  forall keys acc out,
    Forall P acc ->
    marshalKeys marshal keys acc = Ok out ->
    Forall P out /\ (List.length out <= List.length acc + List.length keys)%nat.
Proof.
  intros HP. induction keys as [|meta rest IH]; intros acc out Hacc; cbn [marshalKeys].
  - intros [= <-]. split; [exact Hacc | cbn; lia].
  - destruct (marshal meta) as [jwk | err |] eqn:E; [| |discriminate].
    + intros H. apply IH in H.
      * rewrite length_app in H. cbn [List.length] in *. split; [apply H | lia].
      * apply Forall_app. split; [exact Hacc|]. constructor; [|constructor].
        exact (HP _ _ E).
    + destruct (errors_Is err ErrUnsupportedKeyType); [|discriminate].
      intros H. apply IH in H; [|exact Hacc]. cbn [List.length]. split; [apply H | lia].
Qed.

Lemma KeyMarshal_publicOnly (meta : KeyWithMeta.t) (jwk : JWKMarshal.t) :
  KeyMarshal meta publicOnly = Ok jwk -> publishable jwk.
Proof.
  unfold KeyMarshal, publicOnly.
  destruct meta as [[| key | key | key | key | key | key | key | key | key | name] kid];
    cbn [KeyWithMeta.Key KeyWithMeta.KeyID KeyMarshalOptions.AsymmetricPrivate
         KeyMarshalOptions.Symmetric bind];
    try (destruct (ed25519.Public key); cbn [bind]);
    intros H; try discriminate H; injection H as <-;
    (split; [repeat split | split; [reflexivity | discriminate]]).
Qed.

(** X21.  Whatever the snapshot holds, the key set [JSON] assembles
    publishes no secret: every record is without private parameters and
    without [k], none is of the [oct] type, and there are at most as many
    records as keys. *)
Theorem JSON_publishes_no_secret (keys : list KeyWithMeta.t) (jwks : JWKSMarshal.t) :
  JSON (Ok keys) = Ok jwks ->
  Forall publishable (JWKSMarshal.Keys jwks) /\
  (List.length (JWKSMarshal.Keys jwks) <= List.length keys)%nat.
Proof.
  unfold JSON, JSONwith. cbn [wrapErr bind]. fold publicOnly.
  destruct (marshalKeys _ keys []) as [out | err |] eqn:E; cbn [bind]; try discriminate.
  intros [= <-]. cbn [JWKSMarshal.Keys].
  exact (marshalKeys_Forall _ publishable KeyMarshal_publicOnly keys [] out
           (Forall_nil _) E).
Qed.

(** A snapshot of an RSA private key and a raw byte key. *)
Lemma JSON_publishes_no_secret_witness :
  let key := {| rsa.Pub := {| rsa.N := 3233; rsa.E := 17 |}; rsa.D := 413;
                rsa.Primes := [61; 53];
                rsa.Precomputed := {| rsa.Dp := 53; rsa.Dq := 49; rsa.Qinv := 38;
                                      rsa.CRTValues := [] |} |} in
  let jwks := {| JWKSMarshal.Keys :=
                   [set_KID "rsa" (set_KTY "RSA" (set_N "DKE" (set_E "EQ" zero)))] |} in
  Forall publishable (JWKSMarshal.Keys jwks) /\
  (List.length (JWKSMarshal.Keys jwks) <= 2)%nat.
Proof.
  intros key jwks.
  exact (JSON_publishes_no_secret
           [NewKey (rsaPrivateKey key) "rsa"; NewKey (byteSlice [x01]) "hmac"]
           jwks eq_refl).
Defined.

End Published.

(** ** The earlier revision, further *)

Section LegacyMore.

Import JWKMarshal.

Lemma legacy_marshalOTH_out_of_range (crt : list rsa.CRTValue) (count : nat) :
  forall i : nat,
    (0 < count)%nat -> (List.length crt < i + count)%nat ->
    Legacy.marshalOTH crt i count = Panic.
Proof.
  induction count as [|count IH]; intros i Hpos Hlen; [lia|].
  cbn [Legacy.marshalOTH]. unfold index.
  destruct (nth_error crt i) as [v|] eqn:E; cbn [bind]; [|reflexivity].
  assert (i < List.length crt)%nat by (apply nth_error_Some; congruence).
  rewrite IH by lia. reflexivity.
Qed.

(** X22.  The earlier [KeyMarshal] panics on every RSA private key with
    three primes or more that has fewer CRT values than primes (as every
    key precomputed by [crypto/rsa] has), when private material is asked
    for: its loop reads the CRT values at the indices of the primes. *)
Theorem legacy_marshal_multiprime_panics (key : rsa.PrivateKey) (kid : string)
    (options : KeyMarshalOptions.t) :
  KeyMarshalOptions.AsymmetricPrivate options = true ->
  (3 <= List.length (rsa.Primes key))%nat ->
  (List.length (rsa.CRTValues (rsa.Precomputed key)) < List.length (rsa.Primes key))%nat ->
  Legacy.KeyMarshal (NewKey (rsaPrivateKey key) kid) options = Panic.
Proof.
  intros Hap Hprimes Hcrt. unfold Legacy.KeyMarshal.
  cbn [NewKey KeyWithMeta.Key KeyWithMeta.KeyID]. rewrite Hap.
  destruct (rsa.Primes key) as [|p [|q rest]] eqn:E; cbn [List.length] in *; try lia.
  cbn [index nth_error bind].
  rewrite legacy_marshalOTH_out_of_range by (cbn [Nat.sub]; lia). reflexivity.
Qed.

Lemma legacy_marshal_multiprime_panics_witness :
  Legacy.KeyMarshal
    (NewKey (rsaPrivateKey
               {| rsa.Pub := {| rsa.N := 2431; rsa.E := 7 |};
                  rsa.D := 103;
                  rsa.Primes := [11; 13; 17];
                  rsa.Precomputed :=
                    {| rsa.Dp := 3; rsa.Dq := 7; rsa.Qinv := 6;
                       rsa.CRTValues :=
                         [{| rsa.Exp := 7; rsa.Coeff := 5; rsa.R := 143 |}] |} |}) "k")
    {| KeyMarshalOptions.AsymmetricPrivate := true;
       KeyMarshalOptions.Symmetric := false |} = Panic.
Proof.
  apply legacy_marshal_multiprime_panics; [reflexivity | cbn; lia | cbn; lia].
Defined.

(** X23.  The two revisions do not read each other's Ed25519 private
    records.  For every 64-byte private key: the record the earlier
    [KeyMarshal] writes (the whole key in [d]) is refused by the later
    [KeyUnmarshal] with an error of the [ErrKeyUnmarshalParameter] kind, and
    the record the later [KeyMarshal] writes (the seed in [d]) is refused by
    the earlier [KeyUnmarshal] with an error of the [ErrUnsupportedKeyType]
    kind. *)
Theorem revisions_disagree_on_ed25519_private (key : bytes) (kid : string)
    (symmetric symmetric' : bool) :
  List.length key = ed25519.PrivateKeySize ->
  let opts := {| KeyMarshalOptions.AsymmetricPrivate := true;
                 KeyMarshalOptions.Symmetric := symmetric |} in
  let opts' := {| KeyUnmarshalOptions.AsymmetricPrivate := true;
                  KeyUnmarshalOptions.Symmetric := symmetric' |} in
  (exists err,
      (jwk <- Legacy.KeyMarshal (NewKey (ed25519PrivateKey key) kid) opts ;;
       KeyUnmarshal jwk opts') = Err err /\
      errors_Is err ErrKeyUnmarshalParameter = true) /\
  (exists err,
      (jwk <- KeyMarshal (NewKey (ed25519PrivateKey key) kid) opts ;;
       Legacy.KeyUnmarshal jwk opts') = Err err /\
      errors_Is err ErrUnsupportedKeyType = true).
Proof.
  unfold ed25519.PrivateKeySize. intros Hlen. cbv zeta.
  assert (Hpub : List.length (skipn 32 key) = 32%nat) by (rewrite length_skipn; lia).
  assert (Hseed : List.length (firstn 32 key) = 32%nat) by (rewrite length_firstn; lia).
  split.
  - unfold Legacy.KeyMarshal. cbn [NewKey KeyWithMeta.Key KeyWithMeta.KeyID].
    rewrite (Public_64 key Hlen). cbn [bind KeyMarshalOptions.AsymmetricPrivate].
    rewrite KeyUnmarshal_OKP by reflexivity. unfold unmarshalOKP.
    cbn [ALG CRV D DP DQ E K KID KTY N OTH P Q QI X Y
         set_ALG set_CRV set_D set_DP set_DQ set_E set_K set_KID set_KTY set_N
         set_OTH set_P set_Q set_QI set_X set_Y zero
         KeyUnmarshalOptions.AsymmetricPrivate].
    rewrite (nonEmpty_of_length _ _ Hpub), (bytes_present _ _ Hlen).
    rewrite !base64urlTrailingPadding_EncodeToString.
    cbn [String.eqb negb wrapErr bind andb]. unfold ed25519.PublicKeySize.
    rewrite Hpub. cbn [Nat.eqb negb].
    unfold ed25519.PrivateKeySize. rewrite length_app, Hlen, Hpub.
    eexists. split; reflexivity.
  - unfold KeyMarshal. cbn [NewKey KeyWithMeta.Key KeyWithMeta.KeyID].
    rewrite (Public_64 key Hlen). cbn [bind KeyMarshalOptions.AsymmetricPrivate].
    unfold Legacy.KeyUnmarshal, Legacy.unmarshalOKP.
    cbn [ALG CRV D DP DQ E K KID KTY N OTH P Q QI X Y
         set_ALG set_CRV set_D set_DP set_DQ set_E set_K set_KID set_KTY set_N
         set_OTH set_P set_Q set_QI set_X set_Y zero
         KeyUnmarshalOptions.AsymmetricPrivate].
    rewrite (nonEmpty_of_length _ _ Hseed).
    rewrite base64urlTrailingPadding_EncodeToString.
    cbn [String.eqb Ascii.eqb Bool.eqb KeyTypeEC KeyTypeOKP CurveEd25519
         negb wrapErr bind].
    unfold ed25519.PrivateKeySize. rewrite Hseed.
    eexists. split; reflexivity.
Qed.

Lemma revisions_disagree_on_ed25519_private_witness :
  let key := repeat x01 64 in
  let opts := {| KeyMarshalOptions.AsymmetricPrivate := true;
                 KeyMarshalOptions.Symmetric := false |} in
  let opts' := {| KeyUnmarshalOptions.AsymmetricPrivate := true;
                  KeyUnmarshalOptions.Symmetric := false |} in
  (exists err,
      (jwk <- Legacy.KeyMarshal (NewKey (ed25519PrivateKey key) "k") opts ;;
       KeyUnmarshal jwk opts') = Err err /\
      errors_Is err ErrKeyUnmarshalParameter = true) /\
  (exists err,
      (jwk <- KeyMarshal (NewKey (ed25519PrivateKey key) "k") opts ;;
       Legacy.KeyUnmarshal jwk opts') = Err err /\
      errors_Is err ErrUnsupportedKeyType = true).
Proof.
  exact (revisions_disagree_on_ed25519_private (repeat x01 64) "k" false false eq_refl).
Defined.

(** X24.  An [EC] record on a supported curve with [x] and [y] present and
    decodable but without [d], read with [AsymmetricPrivate] set: the
    earlier [KeyUnmarshal] refuses it with an error of the
    [ErrKeyUnmarshalParameter] kind, the later one returns its public
    key. *)
Theorem revisions_disagree_on_EC_without_d (jwk : JWKMarshal.t)
    (options : KeyUnmarshalOptions.t) (x y : bytes) :
  KTY jwk = "EC" ->
  CRV jwk = "P-256" \/ CRV jwk = "P-384" \/ CRV jwk = "P-521" ->
  nonEmpty (X jwk) = true -> base64urlTrailingPadding (X jwk) = Ok x ->
  nonEmpty (Y jwk) = true -> base64urlTrailingPadding (Y jwk) = Ok y ->
  D jwk = EmptyString ->
  KeyUnmarshalOptions.AsymmetricPrivate options = true ->
  (exists err,
      Legacy.KeyUnmarshal jwk options = Err err /\
      errors_Is err ErrKeyUnmarshalParameter = true) /\
  (exists curve,
      elliptic.Name curve = CRV jwk /\
      KeyUnmarshal jwk options
      = Ok {| KeyWithMeta.Key :=
                ecdsaPublicKey {| ecdsa.Curve := curve;
                                  ecdsa.X := big.SetBytes x;
                                  ecdsa.Y := big.SetBytes y |};
              KeyWithMeta.KeyID := KID jwk |}).
Proof.
  intros Hkty Hcrv HX Hx HY Hy Hd Hap.
  destruct (curveOfCRV_supported _ Hcrv) as (curve & Hcurve & Hname & _).
  assert (HC : isEmpty (CRV jwk) = false).
  { unfold isEmpty. apply String.eqb_neq. destruct Hcrv as [-> | [-> | ->]]; discriminate. }
  apply nonEmpty_isEmpty in HX, HY.
  split.
  - unfold Legacy.KeyUnmarshal, Legacy.unmarshalEC.
    rewrite Hkty, HX, HY, HC, Hx, Hy, Hcurve, Hap, Hd.
    eexists. split; reflexivity.
  - exists curve. split; [exact Hname|].
    rewrite KeyUnmarshal_EC by exact Hkty. unfold unmarshalEC.
    rewrite HC, HX, HY, Hx, Hy, Hcurve, Hap, Hd. reflexivity.
Qed.

Lemma revisions_disagree_on_EC_without_d_witness :
  let jwk := set_Y "AQ" (set_X "AQ" (set_CRV "P-256" (set_KTY "EC" zero))) in
  let options := {| KeyUnmarshalOptions.AsymmetricPrivate := true;
                    KeyUnmarshalOptions.Symmetric := false |} in
  (exists err,
      Legacy.KeyUnmarshal jwk options = Err err /\
      errors_Is err ErrKeyUnmarshalParameter = true) /\
  (exists curve,
      elliptic.Name curve = "P-256" /\
      KeyUnmarshal jwk options
      = Ok {| KeyWithMeta.Key :=
                ecdsaPublicKey {| ecdsa.Curve := curve; ecdsa.X := 1; ecdsa.Y := 1 |};
              KeyWithMeta.KeyID := EmptyString |}).
Proof.
  intros jwk options.
  apply (revisions_disagree_on_EC_without_d jwk options [x01] [x01]);
    try reflexivity.
  left. reflexivity.
Defined.

(** X25.  The key set assembled over the earlier [KeyMarshal] publishes no
    private parameter and no symmetric secret either, and holds at most as
    many records as the snapshot has keys. *)
Theorem legacy_JSON_publishes_no_secret (keys : list KeyWithMeta.t)
    (jwks : JWKSMarshal.t) :
  Legacy.JSON (Ok keys) = Ok jwks ->
  Forall publishable (JWKSMarshal.Keys jwks) /\
  (List.length (JWKSMarshal.Keys jwks) <= List.length keys)%nat.
Proof.
  assert (Hone : forall meta jwk,
             Legacy.KeyMarshal meta publicOnly = Ok jwk -> publishable jwk).
  { intros meta jwk. unfold Legacy.KeyMarshal, publicOnly.
    destruct meta as [[| key | key | key | key | key | key | key | key | key | name] kid];
      cbn [KeyWithMeta.Key KeyWithMeta.KeyID KeyMarshalOptions.AsymmetricPrivate
           KeyMarshalOptions.Symmetric bind];
      try (destruct (ed25519.Public key); cbn [bind]);
      intros H; try discriminate H; injection H as <-;
      (split; [repeat split | split; [reflexivity | discriminate]]). }
  unfold Legacy.JSON, JSONwith. cbn [wrapErr bind]. fold publicOnly.
  destruct (marshalKeys _ keys []) as [out | err |] eqn:E; cbn [bind]; try discriminate.
  intros [= <-]. cbn [JWKSMarshal.Keys].
  exact (marshalKeys_Forall _ publishable Hone keys [] out (Forall_nil _) E).
Qed.

(** A snapshot of an RSA public key held by value and a raw byte key. *)
Lemma legacy_JSON_publishes_no_secret_witness :
  let jwks := {| JWKSMarshal.Keys :=
                   [set_KID "rsa" (set_KTY "RSA" (set_N "DKE" (set_E "EQ" zero)))] |} in
  Forall publishable (JWKSMarshal.Keys jwks) /\
  (List.length (JWKSMarshal.Keys jwks) <= 2)%nat.
Proof.
  intros jwks.
  exact (legacy_JSON_publishes_no_secret
           [NewKey (rsaPublicKeyValue {| rsa.N := 3233; rsa.E := 17 |}) "rsa";
            NewKey (byteSlice [x01]) "hmac"]
           jwks eq_refl).
Defined.

End LegacyMore.
